(** * play.py: the driver of the Tic-Tac-Toe Q-learning agent

    A shallow embedding of [src/play.py]: [plot_agent_reward], the class
    [GameLearning] ([__init__], [beginPlaying], [beginTeaching]) and the
    script body under [__main__].

    The process is modelled by explicit state passing.  A [State] holds the
    attributes of the single [GameLearning] instance of a run together with
    the part of the outside world the script talks to: the file system, the
    lines waiting on standard input, the state of the random generator and
    a chronological trace of the observable effects.  A computation ends in
    one of four ways: it returns, it calls [sys.exit], it raises a Python
    exception nobody caught, or the fuel that bounds the [while] loops of
    the model ran out.

    The modules [agent], [teacher] and [game_logic] that play.py imports
    are not among the sources.  What the script needs of the agent (its
    constructor, its reward history, [save_agent]) is modelled from the
    specification, as is the Q-learning update; a game is a parameter of
    the development. *)

From Stdlib Require Import ZArith QArith Qcanon Ascii String List Lia.
From stdpp Require Import base option list gmap strings pretty.

Open Scope string_scope.
Open Scope list_scope.
Open Scope Z_scope.

(** ** The collaborators of play.py *)

Module Agent.

(** Modelled from the spec: [agent.Qlearner] (agent.py is not part of
    the sources).  The agent owns the hyperparameters alpha, gamma and
    epsilon, a value table from (state key, action index) to an
    estimate, where a pair that was never written reads as 0, and the
    list of recorded rewards.  Estimates are exact rationals in
    canonical form; the rewards of a game are taken to be integers
    (+1 for a win, -1 for a loss, 0 otherwise). *)
Record Qlearner := mkQlearner {
  alpha : Qc;
  gamma : Qc;
  epsilon : Qc;
  Q : gmap (string * nat) Qc;
  rewards : list Z
}.

(** Modelled from the spec: the constructor [Qlearner(alpha, gamma,
    epsilon)] stores its three arguments and starts from an empty value
    table and an empty reward history. *)
Definition new (a g e : Qc) : Qlearner :=
  {| alpha := a; gamma := g; epsilon := e; Q := ∅; rewards := [] |}.

(** Lookup with the default 0 for pairs never written. *)
Definition value (q : gmap (string * nat) Qc) (s : string) (a : nat) : Qc :=
  default 0%Qc (q !! (s, a)).

(** max over the actions considered at the next state; 0 when there is
    none. *)
Definition max_value (q : gmap (string * nat) Qc) (s' : string)
    (actions : list nat) : Qc :=
  match actions with
  | [] => 0%Qc
  | a :: rest =>
      fold_left (fun m a' => if Qclt_le_dec m (value q s' a') then value q s' a' else m)
                rest (value q s' a)
  end.

(** One transition handed to the update: state key, action, reward,
    next state key, the actions considered at the next state, and the
    terminal flag. *)
Record transition := mkTransition {
  t_state : string;
  t_action : nat;
  t_reward : Qc;
  t_next : string;
  t_next_actions : list nat;
  t_done : bool
}.

(** Modelled from the spec: the Q-learning rule
    [Q(s,a) <- Q(s,a) + alpha * (reward + gamma * max_a' Q(s',a') * (1 - done) - Q(s,a))]. *)
Definition update (ag : Qlearner) (t : transition) : Qlearner :=
  let q := Q ag in
  let old := value q (t_state t) (t_action t) in
  let future := (gamma ag * max_value q (t_next t) (t_next_actions t)
                 * (1 - (if t_done t then 1 else 0)))%Qc in
  let new_value := (old + alpha ag * (t_reward t + future - old))%Qc in
  {| alpha := alpha ag; gamma := gamma ag; epsilon := epsilon ag;
     Q := <[(t_state t, t_action t) := new_value]> q;
     rewards := rewards ag |}.

(** Modelled from the spec: [record_episode_reward(total)] appends to
    the reward history, one entry per completed episode. *)
Definition record_episode_reward (ag : Qlearner) (total : Z) : Qlearner :=
  {| alpha := alpha ag; gamma := gamma ag; epsilon := epsilon ag;
     Q := Q ag;
     rewards := rewards ag ++ [total] |}.

(** What happens to the agent in the course of episodes: it is updated
    after a move, and its reward is recorded at the end of an episode. *)
Variant step :=
  | Update (t : transition)
  | Record (total : Z).

Definition learn (ag : Qlearner) (st : step) : Qlearner :=
  match st with
  | Update t => update ag t
  | Record total => record_episode_reward ag total
  end.

Definition episodes (ag : Qlearner) (steps : list step) : Qlearner :=
  fold_left learn steps ag.

End Agent.

Abbreviation Qlearner := Agent.Qlearner.

(** ** Strings: [str.lower] and the yes/no answers *)

(** [str.lower] on the ASCII letters.  Input lines are byte strings
    (UTF-8); no character outside ASCII lower-cases to one of the letters
    of "yes" and "no", so leaving the other bytes alone decides the same
    answers as Python does. *)
Definition lower_ascii (c : ascii) : ascii :=
  let n := N_of_ascii c in
  if ((65 <=? n) && (n <=? 90))%N then ascii_of_N (n + 32) else c.

Fixpoint lower (s : string) : string :=
  match s with
  | EmptyString => EmptyString
  | String c rest => String (lower_ascii c) (lower rest)
  end.

(** [x in [a, b]] on strings. *)
Definition in_list (x : string) (l : list string) : bool :=
  existsb (String.eqb x) l.

Definition says_yes (r : string) : bool := in_list (lower r) ["y"; "yes"].
Definition says_no (r : string) : bool := in_list (lower r) ["n"; "no"].

(** ** The state of a run *)

(** What a file at some path holds: the pickle of an agent, or bytes
    that [pickle.load] rejects.  It rejects them with an UnpicklingError
    (or an EOFError and the like for some contents), which is no
    IOError. *)
Variant file :=
  | Pickled (a : Qlearner)
  | Corrupt.

(** The observable effects of play.py, in the order they happen. *)
Variant event :=
  | EPrint (msg : string)              (* print(msg) *)
  | EInput (prompt : string)           (* input(prompt): prompt shown, a line read *)
  | EPlot (series : list Z)            (* plt.plot(series) ... plt.show() *)
  | EOpen (path : string)              (* open(path, "rb") *)
  | EIsFile (path : string)            (* os.path.isfile(path) *)
  | ESave (path : string)              (* agent.save_agent(path) *)
  | EGame (with_teacher : bool).       (* Game(agent[, teacher]).start() *)

Record State := mkState {
  (* attributes of the GameLearning instance *)
  games_played : Z;
  agent_path : string;
  agent : option Qlearner;              (* None: self.agent not assigned yet *)
  (* the world *)
  fs : gmap string file;
  stdin : list string;
  rng : nat;
  trace : list event
}.

Definition set_games_played (n : Z) (s : State) : State :=
  mkState n (agent_path s) (agent s) (fs s) (stdin s) (rng s) (trace s).
Definition set_agent_path (p : string) (s : State) : State :=
  mkState (games_played s) p (agent s) (fs s) (stdin s) (rng s) (trace s).
Definition set_agent (a : option Qlearner) (s : State) : State :=
  mkState (games_played s) (agent_path s) a (fs s) (stdin s) (rng s) (trace s).
Definition set_fs (f : gmap string file) (s : State) : State :=
  mkState (games_played s) (agent_path s) (agent s) f (stdin s) (rng s) (trace s).
Definition set_stdin (i : list string) (s : State) : State :=
  mkState (games_played s) (agent_path s) (agent s) (fs s) i (rng s) (trace s).
Definition set_rng (r : nat) (s : State) : State :=
  mkState (games_played s) (agent_path s) (agent s) (fs s) (stdin s) r (trace s).
Definition add_trace (es : list event) (s : State) : State :=
  mkState (games_played s) (agent_path s) (agent s) (fs s) (stdin s) (rng s)
          (trace s ++ es).
Definition log (e : event) : State -> State := add_trace [e].

(** Python exceptions that play.py can meet. *)
Variant exn :=
  | IOError
  | EOFError
  | UnpicklingError
  | AttributeError
  | AssertionError (msg : string).

Variant outcome (A : Type) :=
  | Ret (a : A)
  | SysExit (code : Z)
  | Raise (e : exn)
  | OutOfFuel.
Arguments Ret {A} a.
Arguments SysExit {A} code.
Arguments Raise {A} e.
Arguments OutOfFuel {A}.

(** ** The monad of the script *)

Definition M (A : Type) : Type := State -> outcome A * State.

Definition ret {A} (a : A) : M A := fun s => (Ret a, s).

Definition bind {A B} (m : M A) (k : A -> M B) : M B :=
  fun s =>
    match m s with
    | (Ret a, s') => k a s'
    | (SysExit c, s') => (SysExit c, s')
    | (Raise e, s') => (Raise e, s')
    | (OutOfFuel, s') => (OutOfFuel, s')
    end.

Notation "'do' x <- m ; k" := (bind m (fun x => k))
  (at level 60, m at next level, right associativity).
Notation "'do' m ; k" := (bind m (fun _ => k))
  (at level 60, right associativity).

Definition get {A} (f : State -> A) : M A := fun s => (Ret (f s), s).
Definition modify (f : State -> State) : M unit := fun s => (Ret tt, f s).
Definition raise {A} (e : exn) : M A := fun s => (Raise e, s).
Definition sys_exit {A} (code : Z) : M A := fun s => (SysExit code, s).
Definition out_of_fuel {A} : M A := fun s => (OutOfFuel, s).

(** [try: m except IOError: handler] *)
Definition try_except_IOError {A} (m : M A) (handler : M A) : M A :=
  fun s =>
    match m s with
    | (Raise IOError, s') => handler s'
    | r => r
    end.

(** [while True: body], where the body says whether it left the loop
    ([Some a], by [break] or [return a]) or fell through to the next
    round ([None]). *)
Fixpoint while_true {A} (fuel : nat) (body : M (option A)) : M A :=
  match fuel with
  | O => out_of_fuel
  | S fuel' =>
      do r <- body;
      match r with
      | Some a => ret a
      | None => while_true fuel' body
      end
  end.

(** [while cond: body] *)
Fixpoint while {A} (fuel : nat) (cond : State -> bool) (body : M A) : M unit :=
  fun s =>
    if cond s then
      match fuel with
      | O => out_of_fuel s
      | S fuel' => (do body; while fuel' cond body) s
      end
    else ret tt s.

(** ** Primitives *)

Definition print (msg : string) : M unit := modify (log (EPrint msg)).

(** [input(prompt)] shows the prompt and takes the next line of standard
    input; at end of input it raises EOFError. *)
Definition input (prompt : string) : M string :=
  fun s =>
    match stdin s with
    | [] => (Raise EOFError, log (EInput prompt) s)
    | line :: rest => (Ret line, set_stdin rest (log (EInput prompt) s))
    end.

(** [assert cond, msg] *)
Definition assert (cond : bool) (msg : string) : M unit :=
  if cond then ret tt else raise (AssertionError msg).

(** [with open(path, "rb") as f: pickle.load(f)]: opening a path that
    has no file raises an IOError; unpickling bytes that are not a pickle
    raises an UnpicklingError. *)
Definition pickle_load_from (path : string) : M Qlearner :=
  do modify (log (EOpen path));
  do f <- get (fun s => fs s !! path);
  match f with
  | None => raise IOError
  | Some Corrupt => raise UnpicklingError
  | Some (Pickled a) => ret a
  end.

(** [os.path.isfile(path)] *)
Definition isfile (path : string) : M bool :=
  do modify (log (EIsFile path));
  get (fun s => bool_decide (is_Some (fs s !! path))).

(** [self.agent], an AttributeError while it was never assigned. *)
Definition self_agent : M Qlearner :=
  do a <- get agent;
  match a with
  | Some ag => ret ag
  | None => raise AttributeError
  end.

(** Modelled from the spec: [Qlearner.save_agent(path)] (agent.py is not
    part of the sources) pickles the agent to the given path, so that a
    later load gives the same agent back. *)
Definition save_agent (ag : Qlearner) (path : string) : M unit :=
  do modify (log (ESave path));
  modify (fun s => set_fs (<[path := Pickled ag]> (fs s)) s).

(** What a game against the human comes to: it ends, leaving the agent
    and the random generator in some state after reading [consumed]
    lines, or an exception leaves it. *)
Variant game_result :=
  | GameOver (ag : Qlearner) (r : nat) (consumed : nat)
  | GameRaised (e : exn).

(** ** plot_agent_reward *)

Section Cumulative.

(** The rewards are numbers with an addition and the number 0 that
    [total] starts from: Python integers or floats.  Nothing is asked of
    the addition, so that rounding is covered. *)
Context {R : Type} (add : R -> R -> R) (zero : R).

(** The body of the [for reward in rewards] loop on the pair of locals
    ([cumulative_rewards], [total]). *)
Definition accumulate (locals : list R * R) (reward : R) : list R * R :=
  let total := add (snd locals) reward in
  (fst locals ++ [total], total).

(** The list handed to [plt.plot]. *)
Definition cumulative (rewards : list R) : list R :=
  fst (fold_left accumulate rewards ([], zero)).

(** The sum of the first [k] rewards of a list, added up in order from
    0. *)
Definition sum_first (k : nat) (rewards : list R) : R :=
  fold_left add (take k rewards) zero.

End Cumulative.

(** In the run of the script the rewards are integers. *)
Definition cumulative_rewards : list Z -> list Z := cumulative Z.add 0.

Definition plot_agent_reward (rewards : list Z) : M unit :=
  modify (log (EPlot (cumulative_rewards rewards))).

(** ** plot_agent_reward on list objects

    A Python list is an object: the argument [rewards] of
    [plot_agent_reward] is the very list the agent holds, and the local
    [cumulative_rewards] is another list that the function creates and
    appends to.  The store maps the location of each list object to what
    the list holds at the moment. *)

Module Store.

Section Lists.

Context {R : Type} (add : R -> R -> R) (zero : R).

(** [lst.append(x)] for the list at location [c]. *)
Definition append (c : nat) (x : R) (h : gmap nat (list R)) : gmap nat (list R) :=
  alter (fun l => l ++ [x]) c h.

(** [for reward in rewards: total += reward; cumulative_rewards.append(total)].
    The iterator of a list keeps an index and reads the list anew at
    every step; it stops when the index is past the end. *)
Fixpoint for_reward (fuel : nat) (rewards cumulative_rewards : nat)
    (i : nat) (total : R) (h : gmap nat (list R)) : option (gmap nat (list R)) :=
  match fuel with
  | O => None
  | S fuel' =>
      match h !! rewards with
      | None => None
      | Some l =>
          match l !! i with
          | None => Some h
          | Some reward =>
              let total := add total reward in
              for_reward fuel' rewards cumulative_rewards (S i) total
                         (append cumulative_rewards total h)
          end
      end
  end.

(** The function up to the call of [plt.plot]: the store it leaves and
    the list it plots.  [cumulative_rewards = []] makes a new list
    object. *)
Definition plot_agent_reward (fuel : nat) (rewards : nat) (h : gmap nat (list R))
    : option (gmap nat (list R) * list R) :=
  let cumulative_rewards := fresh (dom h) in
  let h := <[cumulative_rewards := []]> h in
  match for_reward fuel rewards cumulative_rewards 0%nat zero h with
  | None => None
  | Some h' =>
      match h' !! cumulative_rewards with
      | None => None
      | Some series => Some (h', series)
      end
  end.

End Lists.

End Store.

(** ** The command line *)

(** The namespace that argparse hands to the script. *)
Record Args := mkArgs {
  load : bool;
  teacher_episodes : option Z;
  plot : bool
}.

Definition invalid_input : string := "Invalid input. Please choose 'y' or 'n'.".

(** ** class GameLearning *)

Module GameLearning.

Definition overwrite_prompt : string :=
  "An agent state is already saved for this type. Are you sure you want to overwrite? [y/n]: ".

Definition file_missing : string := "The agent file does not exist. Quitting.".

(** [def __init__(self, args, alpha=0.5, gamma=0.9, epsilon=0.1)]: a
    keyword parameter the caller leaves out is [None] here and takes
    its default. *)
Definition __init__ (fuel : nat) (args : Args) (alpha gamma epsilon : option Qc) : M unit :=
  let alpha := default (Q2Qc 0.5) alpha in
  let gamma := default (Q2Qc 0.9) gamma in
  let epsilon := default (Q2Qc 0.1) epsilon in
  do modify (set_games_played 0);
  do modify (set_agent_path "./trained_agent.pkl");
  if load args then
    do path <- get agent_path;
    do try_except_IOError
         (do ag <- pickle_load_from path;
          modify (set_agent (Some ag)))
         (do print file_missing;
          sys_exit 0);
    if plot args then
      do ag <- self_agent;
      do plot_agent_reward (Agent.rewards ag);
      sys_exit 0
    else ret tt
  else
    do path <- get agent_path;
    do present <- isfile path;
    do (if present then
          while_true fuel
            (do response <- input overwrite_prompt;
             if says_yes response then ret (Some tt)
             else if says_no response then
               do print "OK. Quitting.";
               sys_exit 0
             else
               do print invalid_input;
               ret None)
        else ret tt);
    modify (set_agent (Some (Agent.new alpha gamma epsilon))).

Definition again_prompt : string := "Do you want to play again? [y/n]: ".

(** The inner function [play_again] of [beginPlaying]. *)
Definition play_again (fuel : nat) : M bool :=
  do n <- get games_played;
  do print ("Games played: " +:+ pretty n);
  while_true fuel
    (do play <- input again_prompt;
     if says_yes play then ret (Some true)
     else if says_no play then ret (Some false)
     else
       do print invalid_input;
       ret None).

Definition welcome : string :=
  "Welcome to Tic-Tac-Toe. You are 'X' and the computer is 'O'.".

(** [self.games_played += 1] *)
Definition count_game : M unit :=
  modify (fun s => set_games_played (games_played s + 1) s).

Section Games.

(** [game_logic.Game] and [teacher.Teacher] are not part of the
    sources; a game is taken as a parameter.  A game receives the
    agent object and nothing else of the [GameLearning] instance: it
    may change the agent (which learns while it plays) and draw
    random numbers.  Against the teacher it reads no input (training
    has no suspension point); against the human it reads some lines
    of standard input, or stops on an exception. *)
Variable teacher_game : Qlearner -> nat -> Qlearner * nat.
Variable human_game : Qlearner -> nat -> list string -> game_result.

(** [game = Game(self.agent, teacher=teacher); game.start()] *)
Definition start_teacher_game : M unit :=
  do ag <- self_agent;
  do modify (log (EGame true));
  do r <- get rng;
  let '(ag', r') := teacher_game ag r in
  do modify (set_rng r');
  modify (set_agent (Some ag')).

(** [game = Game(self.agent); game.start()] *)
Definition start_human_game : M unit :=
  do ag <- self_agent;
  do modify (log (EGame false));
  do r <- get rng;
  do lines <- get stdin;
  match human_game ag r lines with
  | GameOver ag' r' consumed =>
      do modify (set_stdin (drop consumed lines));
      do modify (set_rng r');
      modify (set_agent (Some ag'))
  | GameRaised e => raise e
  end.

(** One round of the [while True] loop of [beginPlaying]. *)
Definition playing_round (fuel : nat) : M (option unit) :=
  do start_human_game;
  do count_game;
  do again <- play_again fuel;
  if negb again then
    do print "OK. Quitting.";
    ret (Some tt)
  else ret None.

Definition beginPlaying (fuel : nat) : M unit :=
  do print welcome;
  while_true fuel (playing_round fuel).

(** One round of the [while] loop of [beginTeaching]. *)
Definition teaching_round : M unit :=
  do start_teacher_game;
  do count_game;
  (* Monitor progress *)
  do n <- get games_played;
  if n mod 1000 =? 0 then print ("Games played: " +:+ pretty n)
  else ret tt.

Definition beginTeaching (fuel : nat) (episodes : Z) : M unit :=
  (* teacher = Teacher(): the teacher has no state *)
  do while fuel (fun s => games_played s <? episodes) teaching_round;
  do ag <- self_agent;
  do plot_agent_reward (Agent.rewards ag);
  do path <- get agent_path;
  save_agent ag path.

End Games.

End GameLearning.

(** ** The script body under [__main__] *)

Section Main.

Variable teacher_game : Qlearner -> nat -> Qlearner * nat.
Variable human_game : Qlearner -> nat -> list string -> game_result.

Definition must_load : string := "Must load an agent to plot reward.".
Definition plot_or_teach : string :=
  "Cannot plot and teach concurrently; must choose one or the other.".

Definition main (fuel : nat) (args : Args) : M unit :=
  do (if plot args then
        do assert (load args) must_load;
        assert (bool_decide (teacher_episodes args = None)) plot_or_teach
      else ret tt);
  (* gl = GameLearning(args) *)
  do GameLearning.__init__ fuel args None None None;
  match teacher_episodes args with
  | Some episodes => GameLearning.beginTeaching teacher_game fuel episodes
  | None => GameLearning.beginPlaying human_game fuel
  end.

End Main.

(** ** Vocabulary of the statements *)

(** How a line typed at a yes/no prompt is read: yes, no, or not an
    answer. *)
Definition answer (r : string) : option bool :=
  if says_yes r then Some true
  else if says_no r then Some false
  else None.

(** What a prompt leaves in the trace while it is given lines that are
    no answer: it is shown again after each of them. *)
Definition reprompts (prompt : string) (junk : list string) : list event :=
  flat_map (fun _ => [EInput prompt; EPrint invalid_input]) junk.

(** The fixed location of the persisted agent. *)
Definition trained_agent : string := "./trained_agent.pkl".

(** The state of a process that has just started. *)
Definition start (files : gmap string file) (lines : list string) (seed : nat) : State :=
  mkState 0 "" None files lines seed [].

(** The agent and the random generator after [k] games against the
    teacher in a row. *)
Fixpoint train (teacher_game : Qlearner -> nat -> Qlearner * nat)
    (k : nat) (ag : Qlearner) (r : nat) : Qlearner * nat :=
  match k with
  | O => (ag, r)
  | S k' => let '(ag', r') := teacher_game ag r in train teacher_game k' ag' r'
  end.

(** What [k] rounds of teaching leave in the trace when [g] games were
    played before: one game per round, and the count of games printed
    each time it reaches a multiple of 1000. *)
Fixpoint teaching_trace (g : Z) (k : nat) : list event :=
  match k with
  | O => []
  | S k' =>
      EGame true
        :: (if (g + 1) mod 1000 =? 0 then [EPrint ("Games played: " +:+ pretty (g + 1))]
            else [])
        ++ teaching_trace (g + 1) k'
  end.

(** The number of games in a trace. *)
Fixpoint games_in (t : list event) : nat :=
  match t with
  | [] => 0
  | EGame _ :: t' => S (games_in t')
  | _ :: t' => games_in t'
  end.

(** The events of playing and of monitoring, as opposed to those of
    plotting, of files and of prompts. *)
Definition game_or_print (e : event) : Prop :=
  match e with
  | EGame _ | EPrint _ => True
  | _ => False
  end.

(** The state after one round of interactive play that began in [s]:
    the game left the agent [ag'] and the random generator [r'], the
    prompt was given the lines [junk] that are no answer and then one
    that is, and [rest] is the input left; [again] is the answer. *)
Definition after_round (s : State) (ag' : Qlearner) (r' : nat)
    (junk rest : list string) (again : bool) : State :=
  mkState (games_played s + 1) (agent_path s) (Some ag') (fs s) rest r'
          (trace s
             ++ [EGame false; EPrint ("Games played: " +:+ pretty (games_played s + 1))]
             ++ reprompts GameLearning.again_prompt junk
             ++ [EInput GameLearning.again_prompt]
             ++ (if again then [] else [EPrint "OK. Quitting."])).

(** The answers to a yes/no prompt, in the words of the spec and
    written out one by one: y and yes, n and no, in every mix of upper
    and lower case.  They are the spec's side of the comparison with the
    tests [says_yes] and [says_no] of the code. *)
Definition yes_answers : list string :=
  ["y"; "Y"; "yes"; "yeS"; "yEs"; "yES"; "Yes"; "YeS"; "YEs"; "YES"].

Definition no_answers : list string := ["n"; "N"; "no"; "nO"; "No"; "NO"].

(** A line that is neither a yes nor a no. *)
Definition no_answer (l : string) : Prop :=
  ~ In l yes_answers /\ ~ In l no_answers.

(** A session of interactive play, in the words of the spec: whole games
    are played one after the other; after each completed game the user
    is asked whether to go on, lines that are neither yes nor no are
    asked about again, a yes starts another game and a no ends the
    session.  [session s n s'] is a session of [n] games from [s] to
    [s']. *)
Inductive session (human_game : Qlearner -> nat -> list string -> game_result)
    : State -> nat -> State -> Prop :=
  | session_stop s ag ag' r' consumed junk ans rest :
      agent s = Some ag ->
      human_game ag (rng s) (stdin s) = GameOver ag' r' consumed ->
      drop consumed (stdin s) = junk ++ ans :: rest ->
      Forall no_answer junk ->
      In ans no_answers ->
      session human_game s 1 (after_round s ag' r' junk rest false)
  | session_again s ag ag' r' consumed junk ans rest n s' :
      agent s = Some ag ->
      human_game ag (rng s) (stdin s) = GameOver ag' r' consumed ->
      drop consumed (stdin s) = junk ++ ans :: rest ->
      Forall no_answer junk ->
      In ans yes_answers ->
      session human_game (after_round s ag' r' junk rest true) n s' ->
      session human_game s (S n) s'.

(** The path an event names, for the events that go to the file
    system. *)
Definition path_of (e : event) : option string :=
  match e with
  | EOpen p | EIsFile p | ESave p => Some p
  | _ => None
  end.

(** An event that, if it goes to the file system, goes to the fixed
    path. *)
Definition at_fixed_path (e : event) : Prop :=
  forall p, path_of e = Some p -> p = trained_agent.

(** [s'] comes after [s] in a run that only goes to the fixed path:
    the trace has grown by such events. *)
Definition traced (s s' : State) : Prop :=
  exists added, trace s' = trace s ++ added /\ Forall at_fixed_path added.

(** The same, for a run that starts with the [agent_path] attribute at
    the fixed path, and that then leaves it there. *)
Definition steady (s s' : State) : Prop :=
  agent_path s = trained_agent ->
  agent_path s' = trained_agent /\ traced s s'.

Definition keeps {A} (m : M A) : Prop := forall s, steady s (snd (m s)).

(** ** A small instance

    Concrete games to run the script on: against the teacher the agent
    records a reward of 1 and one random number is drawn; against the
    human the game reads one line, and stops on EOFError when there is
    none. *)

Module Demo.

Definition teacher_game (ag : Qlearner) (r : nat) : Qlearner * nat :=
  (Agent.record_episode_reward ag 1, S r).

Definition human_game (ag : Qlearner) (r : nat) (lines : list string) : game_result :=
  match lines with
  | [] => GameRaised EOFError
  | _ :: _ => GameOver ag r 1
  end.

(** An agent as the constructor makes it by default. *)
Definition fresh : Qlearner := Agent.new (Q2Qc 0.5) (Q2Qc 0.9) (Q2Qc 0.1).

(** An agent that has been through three episodes. *)
Definition trained : Qlearner :=
  Agent.mkQlearner (Q2Qc 0.5) (Q2Qc 0.9) (Q2Qc 0.1) ∅ [1; -1; 1].

(** An agent that does not learn. *)
Definition frozen : Qlearner :=
  Agent.mkQlearner 0%Qc (Q2Qc 0.9) (Q2Qc 0.1) {[("XO_______", 4%nat) := Q2Qc 0.25]} [].

Definition script := main teacher_game human_game.

End Demo.

(** A computation that, started with fewer than [n] lines of input
    left, does not run out of fuel and leaves no more input than it
    found. *)
Definition fine (n : nat) {A} (m : M A) : Prop :=
  forall s,
    (length (stdin s) < n)%nat ->
    fst (m s) <> OutOfFuel /\ (length (stdin (snd (m s))) <= length (stdin s))%nat.

(** A computation that has read at least one line whenever it returns. *)
Definition eats (n : nat) {A} (m : M A) : Prop :=
  forall s a,
    (length (stdin s) < n)%nat ->
    fst (m s) = Ret a ->
    (length (stdin (snd (m s))) < length (stdin s))%nat.

(** ** Vocabulary of the further properties *)

(** The kinds of events. *)
Definition is_game (e : event) : bool :=
  match e with EGame _ => true | _ => false end.
Definition is_save (e : event) : bool :=
  match e with ESave _ => true | _ => false end.
Definition is_open (e : event) : bool :=
  match e with EOpen _ => true | _ => false end.
Definition is_input (e : event) : bool :=
  match e with EInput _ => true | _ => false end.
Definition is_plot (e : event) : bool :=
  match e with EPlot _ => true | _ => false end.

(** [s'] comes after [s] in a stretch of a run that left the file system
    alone and whose events all pass the test [allowed]. *)
Definition quiet (allowed : event -> bool) (s s' : State) : Prop :=
  fs s' = fs s /\
  exists added, trace s' = trace s ++ added /\ Forall (fun e => allowed e = true) added.

Definition stays_quiet (allowed : event -> bool) {A} (m : M A) : Prop :=
  forall s, quiet allowed s (snd (m s)).

(** A computation that has nothing to do with the file system: on
    another file system it ends the same way, with the same changes to
    the rest of the state, and it leaves the file system as it was. *)
Definition ignores_files {A} (m : M A) : Prop :=
  forall s files, m (set_fs files s) = (fst (m s), set_fs files (snd (m s))).

(** The lines printed to monitor the progress of teaching. *)
Fixpoint progress_lines (t : list event) : list string :=
  match t with
  | [] => []
  | EPrint msg :: t' => msg :: progress_lines t'
  | _ :: t' => progress_lines t'
  end.

(** The rewards read back from a plotted series: each point less the
    point before it, the first point as it is. *)
Fixpoint steps_from (previous : Z) (series : list Z) : list Z :=
  match series with
  | [] => []
  | y :: rest => (y - previous) :: steps_from y rest
  end.

Definition differences (series : list Z) : list Z := steps_from 0 series.

(** * Properties *)

(** ** Running the monad *)

Lemma bind_Ret {A B} (m : M A) (k : A -> M B) s a s1 :
  m s = (Ret a, s1) -> bind m k s = k a s1.
Proof. intros H. unfold bind. now rewrite H. Qed.

Lemma bind_Ret_inv {A B} (m : M A) (k : A -> M B) s b s' :
  bind m k s = (Ret b, s') ->
  exists a s1, m s = (Ret a, s1) /\ k a s1 = (Ret b, s').
Proof.
  unfold bind. destruct (m s) as [[a| | |] s1]; try discriminate.
  intros H. now exists a, s1.
Qed.

Lemma add_trace_nil s : add_trace [] s = s.
Proof. destruct s. unfold add_trace. simpl. now rewrite app_nil_r. Qed.

Lemma add_trace_app es es' s : add_trace es' (add_trace es s) = add_trace (es ++ es') s.
Proof. destruct s. unfold add_trace. simpl. now rewrite app_assoc. Qed.

(** ** Prompts *)

Lemma answer_yes r : says_yes r = true -> answer r = Some true.
Proof. unfold answer. now intros ->. Qed.

Lemma answer_None r : answer r = None -> says_yes r = false /\ says_no r = false.
Proof. unfold answer. destruct (says_yes r), (says_no r); auto; discriminate. Qed.

Lemma answer_Some r b :
  answer r = Some b -> says_yes r = b /\ (b = false -> says_no r = true).
Proof.
  unfold answer. destruct (says_yes r), (says_no r); intros [= <-]; auto.
Qed.

(** The lines that read as yes are those that are "y" or "yes" once
    lower-cased, and likewise for no. *)
Lemma says_yes_iff r : says_yes r = true <-> lower r = "y" \/ lower r = "yes".
Proof.
  unfold says_yes, in_list. cbn [existsb].
  rewrite !orb_true_iff, !String.eqb_eq. intuition discriminate.
Qed.

Lemma says_no_iff r : says_no r = true <-> lower r = "n" \/ lower r = "no".
Proof.
  unfold says_no, in_list. cbn [existsb].
  rewrite !orb_true_iff, !String.eqb_eq. intuition discriminate.
Qed.

Lemma answer_true_iff r : answer r = Some true <-> lower r = "y" \/ lower r = "yes".
Proof.
  rewrite <- says_yes_iff. unfold answer.
  destruct (says_yes r), (says_no r); split; congruence.
Qed.

Lemma answer_false_iff r : answer r = Some false <-> lower r = "n" \/ lower r = "no".
Proof.
  rewrite <- says_no_iff. unfold answer.
  destruct (says_yes r) eqn:Hy, (says_no r) eqn:Hn; split; try congruence.
  apply says_yes_iff in Hy. apply says_no_iff in Hn.
  destruct Hy as [Hy|Hy], Hn as [Hn|Hn]; rewrite Hy in Hn; discriminate.
Qed.

Example answer_upper_case : answer "YES" = Some true /\ answer "No" = Some false.
Proof. split; reflexivity. Qed.

Example answer_other :
  answer "maybe" = None /\ answer "" = None /\ answer " y" = None /\ answer "yess" = None.
Proof. repeat split; reflexivity. Qed.

(** The code's tests against the answers written out: what [str.lower]
    maps to a letter is that letter or its capital, so the lines that
    [says_yes] and [says_no] take are exactly the listed ones. *)
Lemma lower_ascii_inv c d :
  lower_ascii c = d -> c = d \/ c = ascii_of_N (N_of_ascii d - 32).
Proof.
  unfold lower_ascii.
  destruct ((65 <=? N_of_ascii c) && (N_of_ascii c <=? 90))%N eqn:E; [|now left].
  intros <-. right.
  apply andb_true_iff in E as [E1 E2]. apply N.leb_le in E1, E2.
  rewrite N_ascii_embedding by lia.
  replace (N_of_ascii c + 32 - 32)%N with (N_of_ascii c) by lia.
  now rewrite ascii_N_embedding.
Qed.

Lemma lower_one r (c : ascii) :
  lower r = String c "" -> r = String c "" \/ r = String (ascii_of_N (N_of_ascii c - 32)) "".
Proof.
  destruct r as [|c1 [|c2 r]]; try discriminate.
  cbn [lower]. intros [= H]. apply lower_ascii_inv in H as [->| ->]; auto.
Qed.

Lemma says_yes_answers r : says_yes r = true <-> In r yes_answers.
Proof.
  rewrite says_yes_iff. split.
  - intros [H|H].
    + apply lower_one in H as [->| ->]; cbn; auto.
    + destruct r as [|c1 [|c2 [|c3 [|c4 r]]]]; try discriminate.
      cbn [lower] in H. injection H as H1 H2 H3.
      apply lower_ascii_inv in H1 as [->| ->], H2 as [->| ->], H3 as [->| ->];
        cbn; auto 12.
  - intros H. cbn in H.
    repeat (destruct H as [<-|H]; [cbn; auto|]). destruct H.
Qed.

Lemma says_no_answers r : says_no r = true <-> In r no_answers.
Proof.
  rewrite says_no_iff. split.
  - intros [H|H].
    + apply lower_one in H as [->| ->]; cbn; auto.
    + destruct r as [|c1 [|c2 [|c3 r]]]; try discriminate.
      cbn [lower] in H. injection H as H1 H2.
      apply lower_ascii_inv in H1 as [->| ->], H2 as [->| ->]; cbn; auto 12.
  - intros H. cbn in H.
    repeat (destruct H as [<-|H]; [cbn; auto|]). destruct H.
Qed.

Lemma yes_answers_read r : In r yes_answers -> answer r = Some true.
Proof. intros H. apply answer_yes, says_yes_answers, H. Qed.

Lemma no_answers_read r : In r no_answers -> answer r = Some false.
Proof.
  intros H. apply says_no_answers in H. unfold answer. rewrite H.
  destruct (says_yes r) eqn:Hy; [|reflexivity].
  apply says_yes_iff in Hy. apply says_no_iff in H.
  destruct Hy as [Hy|Hy], H as [H|H]; rewrite Hy in H; discriminate.
Qed.

Lemma answer_yes_answers r : answer r = Some true <-> In r yes_answers.
Proof. rewrite answer_true_iff, <- says_yes_iff. apply says_yes_answers. Qed.

Lemma answer_no_answers r : answer r = Some false <-> In r no_answers.
Proof. rewrite answer_false_iff, <- says_no_iff. apply says_no_answers. Qed.

Lemma no_answer_read r : no_answer r <-> answer r = None.
Proof.
  unfold no_answer, answer. rewrite <- says_yes_answers, <- says_no_answers.
  destruct (says_yes r), (says_no r); split; try congruence; intuition congruence.
Qed.

Lemma no_answers_read_all junk :
  Forall no_answer junk <-> Forall (fun l => answer l = None) junk.
Proof. apply Forall_iff. intros l. apply no_answer_read. Qed.

(** A yes/no prompt that is given lines that are no answer asks again,
    once per line, and goes on with what is left of the input. *)
Lemma while_true_reprompt {A} prompt (on_yes on_no : M (option A)) junk :
  forall fuel rest s,
    Forall (fun r => answer r = None) junk ->
    stdin s = junk ++ rest ->
    while_true (length junk + fuel)
      (do r <- input prompt;
       if says_yes r then on_yes
       else if says_no r then on_no
       else do print invalid_input; ret None) s
    = while_true fuel
      (do r <- input prompt;
       if says_yes r then on_yes
       else if says_no r then on_no
       else do print invalid_input; ret None)
      (set_stdin rest (add_trace (reprompts prompt junk) s)).
Proof.
  induction junk as [|r junk IH]; intros fuel rest s Hj Hs.
  - simpl in *. rewrite add_trace_nil. destruct s; simpl in *. now subst.
  - inversion Hj as [|? ? Hr Hj']; subst.
    apply answer_None in Hr as [Hy Hn].
    cbn [length Nat.add while_true].
    unfold bind at 1. unfold bind at 1. unfold input at 1. rewrite Hs. cbn [app].
    rewrite Hy, Hn.
    unfold bind at 1. unfold print, modify at 1. unfold bind at 1, ret at 1.
    rewrite (IH fuel rest); auto.
    destruct s; unfold set_stdin, log, add_trace; simpl.
    now rewrite <- !app_assoc.
Qed.

(** ** Construction: [GameLearning.__init__] *)

Lemma init_fresh_unfold fuel args al ga ep s :
  load args = false ->
  is_Some (fs s !! trained_agent) ->
  GameLearning.__init__ fuel args al ga ep s =
  (do (while_true fuel
        (do response <- input GameLearning.overwrite_prompt;
         if says_yes response then ret (Some tt)
         else if says_no response then
           do print "OK. Quitting."; sys_exit 0
         else do print invalid_input; ret None));
   modify (set_agent (Some (Agent.new (default (Q2Qc 0.5) al) (default (Q2Qc 0.9) ga)
                                     (default (Q2Qc 0.1) ep)))))
    (mkState 0 trained_agent (agent s) (fs s) (stdin s) (rng s) (trace s ++ [EIsFile trained_agent])).
Proof.
  intros Hl Hf. unfold GameLearning.__init__. rewrite Hl.
  unfold bind at 1. unfold modify at 1. cbn beta iota.
  unfold bind at 1. unfold modify at 1. cbn beta iota.
  unfold bind at 1. unfold get at 1. cbn beta iota.
  unfold bind at 1. unfold isfile at 1, bind at 1, modify at 1, get at 1. cbn beta iota.
  change (agent_path (set_agent_path "./trained_agent.pkl" (set_games_played 0 s))) with trained_agent.
  change (fs (log (EIsFile trained_agent) (set_agent_path "./trained_agent.pkl" (set_games_played 0 s)))) with (fs s).
  rewrite bool_decide_eq_true_2 by assumption.
  reflexivity.
Qed.

Lemma overwrite_loop_Ret fuel : forall s a s',
  while_true fuel
    (do response <- input GameLearning.overwrite_prompt;
     if says_yes response then ret (Some tt)
     else if says_no response then
       do print "OK. Quitting."; sys_exit 0
     else do print invalid_input; ret None) s = (Ret a, s') ->
  exists junk r rest,
    stdin s = junk ++ r :: rest /\
    Forall (fun l => answer l = None) junk /\
    says_yes r = true.
Proof.
  induction fuel as [|fuel IH]; intros s a s' H; [discriminate|].
  cbn [while_true] in H. unfold bind at 1 2 in H. unfold input at 1 in H.
  destruct (stdin s) as [|l lines] eqn:Hs; [discriminate|].
  destruct (says_yes l) eqn:Hy.
  - exists [], l, lines. auto.
  - destruct (says_no l) eqn:Hn; [discriminate|].
    unfold bind at 1, print, modify at 1 in H. unfold bind at 1, ret at 1 in H.
    apply IH in H as (junk & r & rest & Hst & Hj & Hr).
    simpl in Hst. exists (l :: junk), r, rest. subst lines.
    repeat split; auto. constructor; auto.
    unfold answer. now rewrite Hy, Hn.
Qed.

(** The overwrite dialogue, for an input of lines that are no answer
    followed by one that is. *)
Lemma init_overwrite fuel args al ga ep s junk r rest b :
  load args = false ->
  is_Some (fs s !! trained_agent) ->
  stdin s = junk ++ r :: rest ->
  Forall (fun l => answer l = None) junk ->
  answer r = Some b ->
  (length junk < fuel)%nat ->
  let asked := trace s ++ [EIsFile trained_agent]
                 ++ reprompts GameLearning.overwrite_prompt junk
                 ++ [EInput GameLearning.overwrite_prompt] in
  let fresh := Agent.new (default (Q2Qc 0.5) al) (default (Q2Qc 0.9) ga)
                         (default (Q2Qc 0.1) ep) in
  GameLearning.__init__ fuel args al ga ep s =
  if b then
    (Ret tt, mkState 0 trained_agent (Some fresh) (fs s) rest (rng s) asked)
  else
    (SysExit 0, mkState 0 trained_agent (agent s) (fs s) rest (rng s)
                        (asked ++ [EPrint "OK. Quitting."])).
Proof.
  intros Hl Hf Hs Hj Hr Hfuel asked fresh.
  rewrite (init_fresh_unfold _ _ _ _ _ _ Hl Hf).
  replace fuel with (length junk + S (fuel - length junk - 1))%nat by lia.
  unfold bind at 1.
  rewrite (while_true_reprompt _ _ _ junk _ (r :: rest)); [|assumption|exact Hs].
  apply answer_Some in Hr as [Hy Hn].
  cbn [while_true]. unfold bind at 1 2. unfold input at 1. cbn [stdin set_stdin].
  rewrite Hy. destruct b.
  - unfold ret at 1. unfold ret, modify, set_agent, set_stdin, log, add_trace. simpl.
    subst asked. now rewrite <- !app_assoc.
  - rewrite Hn by reflexivity.
    unfold bind, print, modify, sys_exit, set_stdin, log, add_trace. simpl.
    subst asked. now rewrite <- !app_assoc.
Qed.

Lemma init_overwrite_yes fuel args al ga ep s junk r rest :
  load args = false ->
  is_Some (fs s !! trained_agent) ->
  stdin s = junk ++ r :: rest ->
  Forall (fun l => answer l = None) junk ->
  answer r = Some true ->
  (length junk < fuel)%nat ->
  GameLearning.__init__ fuel args al ga ep s =
  (Ret tt,
   mkState 0 trained_agent
           (Some (Agent.new (default (Q2Qc 0.5) al) (default (Q2Qc 0.9) ga)
                            (default (Q2Qc 0.1) ep)))
           (fs s) rest (rng s)
           (trace s ++ [EIsFile trained_agent]
              ++ reprompts GameLearning.overwrite_prompt junk
              ++ [EInput GameLearning.overwrite_prompt])).
Proof.
  intros Hl Hf Hs Hj Hr Hfuel.
  now rewrite (init_overwrite fuel args al ga ep s junk r rest true).
Qed.

Lemma overwrite_loop_exit fuel : forall s code s',
  while_true fuel
    (do response <- input GameLearning.overwrite_prompt;
     if says_yes response then ret (Some tt)
     else if says_no response then
       do print "OK. Quitting."; sys_exit 0
     else do print invalid_input; ret None) s = (SysExit code, s') ->
  code = 0 /\
  exists junk r rest,
    stdin s = junk ++ r :: rest /\
    Forall (fun l => answer l = None) junk /\
    says_no r = true.
Proof.
  induction fuel as [|fuel IH]; intros s code s' H; [discriminate|].
  cbn [while_true] in H. unfold bind at 1 2 in H. unfold input at 1 in H.
  destruct (stdin s) as [|l lines] eqn:Hs; [discriminate|].
  destruct (says_yes l) eqn:Hy; [discriminate|].
  destruct (says_no l) eqn:Hn.
  - unfold bind at 1, print, modify at 1 in H. unfold sys_exit, bind in H.
    injection H as <- _. split; [reflexivity|]. exists [], l, lines. auto.
  - unfold bind at 1, print, modify at 1 in H. unfold bind at 1, ret at 1 in H.
    apply IH in H as (-> & junk & r & rest & Hst & Hj & Hr).
    split; [reflexivity|].
    simpl in Hst. exists (l :: junk), r, rest. subst lines.
    repeat split; auto. constructor; auto.
    unfold answer. now rewrite Hy, Hn.
Qed.

(** C10: with the load flag off and an agent file at the fixed path,
    the constructor asks for confirmation until it is given y or yes, or
    n or no, in any mix of upper and lower case, asking again after
    every other line.  On n or no it exits with status 0, the [agent]
    attribute still unassigned and the file system as it was; on y or
    yes it stops asking and assigns a fresh Qlearner.  Conversely it
    returns, then with an agent, only if it was given a y or yes, and it
    exits only if it was given an n or no. *)
Theorem overwrite_confirmation fuel args al ga ep s :
  load args = false ->
  is_Some (fs s !! trained_agent) ->
  (forall junk r rest,
      stdin s = junk ++ r :: rest ->
      Forall no_answer junk ->
      (length junk < fuel)%nat ->
      let asked := trace s ++ [EIsFile trained_agent]
                     ++ reprompts GameLearning.overwrite_prompt junk
                     ++ [EInput GameLearning.overwrite_prompt] in
      let fresh := Agent.new (default (Q2Qc 0.5) al) (default (Q2Qc 0.9) ga)
                             (default (Q2Qc 0.1) ep) in
      (In r yes_answers ->
       GameLearning.__init__ fuel args al ga ep s =
       (Ret tt, mkState 0 trained_agent (Some fresh) (fs s) rest (rng s) asked)) /\
      (In r no_answers ->
       GameLearning.__init__ fuel args al ga ep s =
       (SysExit 0, mkState 0 trained_agent (agent s) (fs s) rest (rng s)
                           (asked ++ [EPrint "OK. Quitting."]))))
  /\ (forall s',
      GameLearning.__init__ fuel args al ga ep s = (Ret tt, s') ->
      exists junk r rest,
        stdin s = junk ++ r :: rest /\ Forall no_answer junk /\ In r yes_answers)
  /\ (forall code s',
      GameLearning.__init__ fuel args al ga ep s = (SysExit code, s') ->
      exists junk r rest,
        stdin s = junk ++ r :: rest /\ Forall no_answer junk /\ In r no_answers).
Proof.
  intros Hl Hf. split; [|split].
  - intros junk r rest Hs Hj Hfuel asked fresh.
    apply no_answers_read_all in Hj.
    split; intros Hr.
    + apply yes_answers_read in Hr.
      exact (init_overwrite fuel args al ga ep s junk r rest true Hl Hf Hs Hj Hr Hfuel).
    + apply no_answers_read in Hr.
      exact (init_overwrite fuel args al ga ep s junk r rest false Hl Hf Hs Hj Hr Hfuel).
  - intros s' H. rewrite (init_fresh_unfold _ _ _ _ _ _ Hl Hf) in H.
    apply bind_Ret_inv in H as (a & s1 & H & _).
    apply overwrite_loop_Ret in H as (junk & r & rest & Hs & Hj & Hr).
    exists junk, r, rest. split; [exact Hs|]. split.
    + apply no_answers_read_all, Hj.
    + apply says_yes_answers, Hr.
  - intros code s' H. rewrite (init_fresh_unfold _ _ _ _ _ _ Hl Hf) in H.
    unfold bind at 1 in H.
    match type of H with
    | context [while_true fuel ?body ?st] =>
        destruct (while_true fuel body st) as [[a| c | e |] s1] eqn:Hloop
    end; try discriminate.
    injection H as <- <-.
    apply overwrite_loop_exit in Hloop as (_ & junk & r & rest & Hs & Hj & Hr).
    exists junk, r, rest. split; [exact Hs|]. split.
    + apply no_answers_read_all, Hj.
    + apply says_no_answers, Hr.
Qed.

(** What loading does, by what the fixed path holds. *)
Lemma init_load fuel args al ga ep s :
  load args = true ->
  GameLearning.__init__ fuel args al ga ep s =
  let opened := mkState 0 trained_agent (agent s) (fs s) (stdin s) (rng s)
                        (trace s ++ [EOpen trained_agent]) in
  match fs s !! trained_agent with
  | None => (SysExit 0, add_trace [EPrint GameLearning.file_missing] opened)
  | Some Corrupt => (Raise UnpicklingError, opened)
  | Some (Pickled ag) =>
      if plot args then
        (SysExit 0, add_trace [EPlot (cumulative_rewards (Agent.rewards ag))]
                              (set_agent (Some ag) opened))
      else (Ret tt, set_agent (Some ag) opened)
  end.
Proof.
  intros Hl. unfold GameLearning.__init__. rewrite Hl.
  unfold bind at 1. unfold modify at 1. cbn beta iota.
  unfold bind at 1. unfold modify at 1. cbn beta iota.
  unfold bind at 1. unfold get at 1. cbn beta iota.
  change (agent_path (set_agent_path "./trained_agent.pkl" (set_games_played 0 s))) with trained_agent.
  unfold bind at 1, try_except_IOError at 1.
  unfold bind at 1, pickle_load_from at 1.
  unfold bind at 1 2, modify at 1, get at 1.
  change (fs (log (EOpen trained_agent) (set_agent_path "./trained_agent.pkl" (set_games_played 0 s)))) with (fs s).
  destruct (fs s !! trained_agent) as [[ag|]|]; try reflexivity.
  destruct (plot args); reflexivity.
Qed.

Lemma init_missing_file fuel args al ga ep s :
  load args = true ->
  fs s !! trained_agent = None ->
  GameLearning.__init__ fuel args al ga ep s =
  (SysExit 0,
   mkState 0 trained_agent (agent s) (fs s) (stdin s) (rng s)
           (trace s ++ [EOpen trained_agent;
                        EPrint "The agent file does not exist. Quitting."])).
Proof.
  intros Hl Hf. rewrite init_load by assumption. rewrite Hf.
  unfold add_trace. simpl. now rewrite <- app_assoc.
Qed.

Lemma init_load_and_plot fuel args al ga ep s ag :
  load args = true ->
  plot args = true ->
  fs s !! trained_agent = Some (Pickled ag) ->
  GameLearning.__init__ fuel args al ga ep s =
  (SysExit 0,
   mkState 0 trained_agent (Some ag) (fs s) (stdin s) (rng s)
           (trace s ++ [EOpen trained_agent;
                        EPlot (cumulative_rewards (Agent.rewards ag))])).
Proof.
  intros Hl Hp Hf. rewrite init_load by assumption. rewrite Hf, Hp.
  unfold add_trace, set_agent. simpl. now rewrite <- app_assoc.
Qed.

Lemma init_corrupt_file fuel args al ga ep s :
  load args = true ->
  fs s !! trained_agent = Some Corrupt ->
  GameLearning.__init__ fuel args al ga ep s =
  (Raise UnpicklingError,
   mkState 0 trained_agent (agent s) (fs s) (stdin s) (rng s)
           (trace s ++ [EOpen trained_agent])).
Proof.
  intros Hl Hf. rewrite init_load by assumption. now rewrite Hf.
Qed.

Lemma init_no_file fuel args al ga ep s :
  load args = false ->
  fs s !! trained_agent = None ->
  GameLearning.__init__ fuel args al ga ep s =
  (Ret tt,
   mkState 0 trained_agent
           (Some (Agent.new (default (Q2Qc 0.5) al) (default (Q2Qc 0.9) ga)
                            (default (Q2Qc 0.1) ep)))
           (fs s) (stdin s) (rng s) (trace s ++ [EIsFile trained_agent])).
Proof.
  intros Hl Hf. unfold GameLearning.__init__. rewrite Hl.
  unfold bind at 1. unfold modify at 1. cbn beta iota.
  unfold bind at 1. unfold modify at 1. cbn beta iota.
  unfold bind at 1. unfold get at 1. cbn beta iota.
  unfold bind at 1. unfold isfile at 1, bind at 1, modify at 1, get at 1. cbn beta iota.
  change (agent_path (set_agent_path "./trained_agent.pkl" (set_games_played 0 s))) with trained_agent.
  change (fs (log (EIsFile trained_agent) (set_agent_path "./trained_agent.pkl" (set_games_played 0 s)))) with (fs s).
  rewrite bool_decide_eq_false_2 by (rewrite Hf; intros [? ?]; discriminate).
  reflexivity.
Qed.

(** Whenever the constructor returns without the load flag, the last
    thing it did was to assign the fresh agent. *)
Lemma init_fresh_agent fuel args al ga ep s s' :
  load args = false ->
  GameLearning.__init__ fuel args al ga ep s = (Ret tt, s') ->
  agent s' = Some (Agent.new (default (Q2Qc 0.5) al) (default (Q2Qc 0.9) ga)
                             (default (Q2Qc 0.1) ep)).
Proof.
  intros Hl. unfold GameLearning.__init__. rewrite Hl. intros H.
  apply bind_Ret_inv in H as (? & s1 & _ & H).
  apply bind_Ret_inv in H as (? & s2 & _ & H).
  apply bind_Ret_inv in H as (? & s3 & _ & H).
  apply bind_Ret_inv in H as (? & s4 & _ & H).
  apply bind_Ret_inv in H as (? & s5 & _ & H).
  unfold modify in H. now inversion H.
Qed.

(** C8: a GameLearning constructed with none of the keyword arguments
    and without the load flag returns when there is no agent file in the
    way, and whenever it returns it has a fresh Qlearner with
    alpha = 0.5, gamma = 0.9 and epsilon = 0.1, an empty value table and
    no rewards; these values lie in the ranges 0 < alpha <= 1,
    0 <= gamma <= 1 and 0 <= epsilon <= 1. *)
Theorem default_hyperparameters fuel args s :
  load args = false ->
  (fs s !! trained_agent = None ->
   exists s', GameLearning.__init__ fuel args None None None s = (Ret tt, s')) /\
  (forall s',
      GameLearning.__init__ fuel args None None None s = (Ret tt, s') ->
      exists ag,
        agent s' = Some ag /\
        ag = Agent.new (Q2Qc 0.5) (Q2Qc 0.9) (Q2Qc 0.1) /\
        (0 < Agent.alpha ag /\ Agent.alpha ag <= 1)%Qc /\
        (0 <= Agent.gamma ag /\ Agent.gamma ag <= 1)%Qc /\
        (0 <= Agent.epsilon ag /\ Agent.epsilon ag <= 1)%Qc).
Proof.
  intros Hl. split.
  - intros Hf. eexists. apply init_no_file; assumption.
  - intros s' H. apply init_fresh_agent in H; [|assumption].
    eexists. split; [exact H|]. split; [reflexivity|].
    cbn [Agent.new Agent.alpha Agent.gamma Agent.epsilon default].
    unfold Qclt, Qcle, Qlt, Qle. simpl. lia.
Qed.

(** ** The Q-learning update *)

Lemma learn_alpha ag st : Agent.alpha (Agent.learn ag st) = Agent.alpha ag.
Proof. destruct st; reflexivity. Qed.

Lemma update_no_learning ag t s a :
  Agent.alpha ag = 0%Qc ->
  Agent.value (Agent.Q (Agent.update ag t)) s a = Agent.value (Agent.Q ag) s a.
Proof.
  intros Hz. unfold Agent.update. cbn [Agent.Q]. rewrite Hz.
  unfold Agent.value at 1.
  destruct (decide ((Agent.t_state t, Agent.t_action t) = (s, a))) as [E|NE].
  - rewrite E, lookup_insert_eq. cbn [default].
    injection E as -> ->. unfold id. ring.
  - rewrite lookup_insert_ne by assumption. reflexivity.
Qed.

(** C6: for an agent with alpha = 0, after any number of updates, in
    episodes of any number and length, every entry of the value table
    reads as it did before. *)
Theorem updates_no_learning ag steps :
  Agent.alpha ag = 0%Qc ->
  forall s a,
    Agent.value (Agent.Q (Agent.episodes ag steps)) s a = Agent.value (Agent.Q ag) s a.
Proof.
  revert ag. unfold Agent.episodes.
  induction steps as [|st steps IH]; intros ag Hz s a; [reflexivity|].
  cbn [fold_left]. rewrite IH by (now rewrite learn_alpha).
  destruct st as [t|total]; [now apply update_no_learning|reflexivity].
Qed.

(** With a learning rate other than 0 the update does move the entry:
    a fresh agent that wins on the move learns half of the reward. *)
Example update_learns :
  Agent.value
    (Agent.Q (Agent.update (Agent.new (Q2Qc 0.5) (Q2Qc 0.9) (Q2Qc 0.1))
                (Agent.mkTransition "XX_OO____" 2 1%Qc "XXXOO____" [] true)))
    "XX_OO____" 2
  = Q2Qc 0.5.
Proof. apply Qc_is_canon. vm_compute. reflexivity. Qed.

(** ** The plotted series *)

Section Series.

Context {R : Type} (add : R -> R -> R) (zero : R).

Lemma accumulate_snoc l x init :
  fold_left (accumulate add) (l ++ [x]) init
  = accumulate add (fold_left (accumulate add) l init) x.
Proof. now rewrite fold_left_app. Qed.

(** The local [total] is the sum so far. *)
Lemma total_is_sum l :
  snd (fold_left (accumulate add) l ([], zero)) = fold_left add l zero.
Proof.
  induction l as [|x l IH] using rev_ind; [reflexivity|].
  rewrite accumulate_snoc, fold_left_app. unfold accumulate at 1. cbn [snd fold_left].
  now rewrite IH.
Qed.

Lemma cumulative_snoc l x :
  cumulative add zero (l ++ [x])
  = cumulative add zero l ++ [fold_left add (l ++ [x]) zero].
Proof.
  unfold cumulative. rewrite accumulate_snoc. unfold accumulate at 1. cbn [fst].
  now rewrite total_is_sum, fold_left_app.
Qed.

Lemma cumulative_length l : length (cumulative add zero l) = length l.
Proof.
  induction l as [|x l IH] using rev_ind; [reflexivity|].
  rewrite cumulative_snoc, !length_app, IH. reflexivity.
Qed.

Lemma cumulative_lookup l : forall i,
  (i < length l)%nat -> cumulative add zero l !! i = Some (sum_first add zero (S i) l).
Proof.
  induction l as [|x l IH] using rev_ind; intros i Hi; [simpl in Hi; lia|].
  rewrite cumulative_snoc. rewrite length_app in Hi. simpl in Hi.
  unfold sum_first.
  destruct (decide (i < length l)%nat) as [Hlt|Hge].
  - rewrite lookup_app_l by (rewrite cumulative_length; lia).
    rewrite IH by assumption. unfold sum_first.
    now rewrite take_app_le by lia.
  - assert (i = length l) as -> by lia.
    rewrite lookup_app_r by (rewrite cumulative_length; lia).
    rewrite cumulative_length, Nat.sub_diag.
    rewrite take_ge by (rewrite length_app; simpl; lia).
    reflexivity.
Qed.

(** *** On list objects *)

Lemma for_reward_spec r c suf :
  forall pre fuel total acc (h : gmap nat (list R)),
    c <> r ->
    h !! r = Some (pre ++ suf) ->
    h !! c = Some acc ->
    (length suf < fuel)%nat ->
    Store.for_reward add fuel r c (length pre) total h =
    Some (<[c := fst (fold_left (accumulate add) suf (acc, total))]> h).
Proof.
  induction suf as [|x suf IH]; intros pre fuel total acc h Hc Hr Hacc Hfuel;
    (destruct fuel as [|fuel]; [simpl in Hfuel; lia|]);
    cbn [Store.for_reward]; rewrite Hr.
  - rewrite app_nil_r, lookup_ge_None_2 by lia.
    cbn [fold_left fst]. now rewrite insert_id.
  - rewrite lookup_app_r, Nat.sub_diag by lia. cbn [lookup list_lookup].
    replace (S (length pre)) with (length (pre ++ [x])) by (rewrite length_app; simpl; lia).
    unfold Store.append.
    rewrite (IH (pre ++ [x]) fuel (add total x) (acc ++ [add total x]));
      simpl in Hfuel; try lia; auto.
    + now rewrite insert_alter_eq.
    + rewrite lookup_alter_ne by assumption. now rewrite <- app_assoc.
    + now rewrite lookup_alter_eq, Hacc.
Qed.

Lemma store_plot_agent_reward fuel r l (h : gmap nat (list R)) :
  h !! r = Some l ->
  (length l < fuel)%nat ->
  Store.plot_agent_reward add zero fuel r h =
  Some (<[fresh (dom h) := cumulative add zero l]> h, cumulative add zero l).
Proof.
  intros Hr Hfuel. unfold Store.plot_agent_reward.
  assert (fresh (dom h) <> r) as Hc.
  { intros E. apply (is_fresh (dom h)). rewrite E. apply elem_of_dom. eauto. }
  rewrite (for_reward_spec r _ l [] fuel zero []); auto.
  - rewrite insert_insert_eq, lookup_insert_eq. reflexivity.
  - now rewrite lookup_insert_ne.
  - now rewrite lookup_insert_eq.
Qed.

(** C5: [plot_agent_reward] plots the running sums of the list it is
    given: the plotted list is as long as the rewards, and its entry i is
    the sum of the first i+1 rewards, added up in order.  The list object
    it was given, and every list that existed before the call, holds
    afterwards what it held before. *)
Theorem plot_prefix_sums fuel rewards l (h : gmap nat (list R)) :
  h !! rewards = Some l ->
  (length l < fuel)%nat ->
  exists h' series,
    Store.plot_agent_reward add zero fuel rewards h = Some (h', series) /\
    series = cumulative add zero l /\
    length series = length l /\
    (forall i, (i < length l)%nat -> series !! i = Some (sum_first add zero (S i) l)) /\
    h' !! rewards = Some l /\
    (forall p, is_Some (h !! p) -> h' !! p = h !! p).
Proof.
  intros Hr Hfuel.
  exists (<[fresh (dom h) := cumulative add zero l]> h), (cumulative add zero l).
  split; [exact (store_plot_agent_reward _ _ _ _ Hr Hfuel)|].
  split; [reflexivity|]. split; [apply cumulative_length|].
  split; [apply cumulative_lookup|].
  assert (forall p, is_Some (h !! p) ->
                    (<[fresh (dom h) := cumulative add zero l]> h) !! p = h !! p) as Hp.
  { intros p Hp. apply lookup_insert_ne. intros E.
    apply (is_fresh (dom h)). rewrite E. now apply elem_of_dom. }
  split; [|exact Hp]. rewrite Hp; eauto.
Qed.

End Series.

(** A yes/no prompt that returns was given a line that is an answer,
    after lines that are none. *)
Lemma while_true_reprompt_inv {A} prompt (on_yes on_no : M (option A)) fuel :
  forall s a s',
    while_true fuel
      (do r <- input prompt;
       if says_yes r then on_yes
       else if says_no r then on_no
       else do print invalid_input; ret None) s = (Ret a, s') ->
    exists junk ans rest b,
      stdin s = junk ++ ans :: rest /\
      Forall (fun l => answer l = None) junk /\
      answer ans = Some b /\
      (length junk < fuel)%nat.
Proof.
  induction fuel as [|fuel IH]; intros s a s' H; [discriminate|].
  cbn [while_true] in H. unfold bind at 1 2 in H. unfold input at 1 in H.
  destruct (stdin s) as [|l lines] eqn:Hs; [discriminate|].
  destruct (answer l) as [b|] eqn:Hl.
  - exists [], l, lines, b. repeat split; auto. simpl. lia.
  - destruct (answer_None _ Hl) as [Hy Hn]. rewrite Hy, Hn in H.
    unfold bind at 1, print, modify at 1 in H. unfold bind at 1, ret at 1 in H.
    apply IH in H as (junk & ans & rest & b & Hst & Hj & Hans & Hlen).
    simpl in Hst. exists (l :: junk), ans, rest, b. subst lines.
    repeat split; auto. simpl. lia.
Qed.

(** ** The agent path is fixed *)

Lemma traced_refl s : traced s s.
Proof. exists []. split; [now rewrite app_nil_r|constructor]. Qed.

Lemma traced_trans s1 s2 s3 : traced s1 s2 -> traced s2 s3 -> traced s1 s3.
Proof.
  intros (a & Ha & Fa) (b & Hb & Fb). exists (a ++ b). split.
  - now rewrite Hb, Ha, app_assoc.
  - apply Forall_app; auto.
Qed.

Lemma steady_refl s : steady s s.
Proof. intros H. split; [exact H|apply traced_refl]. Qed.

Lemma steady_trans s1 s2 s3 : steady s1 s2 -> steady s2 s3 -> steady s1 s3.
Proof.
  intros H12 H23 H1. destruct (H12 H1) as [H2 T12]. destruct (H23 H2) as [H3 T23].
  split; [exact H3|eapply traced_trans; eauto].
Qed.

Lemma keeps_ret {A} (a : A) : keeps (ret a).
Proof. intros s. apply steady_refl. Qed.

Lemma keeps_get {A} (f : State -> A) : keeps (get f).
Proof. intros s. apply steady_refl. Qed.

Lemma keeps_raise {A} e : keeps (@raise A e).
Proof. intros s. apply steady_refl. Qed.

Lemma keeps_sys_exit {A} c : keeps (@sys_exit A c).
Proof. intros s. apply steady_refl. Qed.

Lemma keeps_out_of_fuel {A} : keeps (@out_of_fuel A).
Proof. intros s. apply steady_refl. Qed.

Lemma keeps_bind {A B} (m : M A) (k : A -> M B) :
  keeps m -> (forall a, keeps (k a)) -> keeps (bind m k).
Proof.
  intros Hm Hk s. unfold bind. specialize (Hm s).
  destruct (m s) as [[a| | |] s1]; cbn [snd] in *; auto.
  eapply steady_trans; [exact Hm|apply Hk].
Qed.

(** Code that reads the agent path finds the fixed path there. *)
Lemma keeps_bind_path {B} (k : string -> M B) :
  keeps (k trained_agent) -> keeps (bind (get agent_path) k).
Proof.
  intros Hk s Hp. unfold bind, get. rewrite Hp. now apply Hk.
Qed.

Lemma keeps_modify (f : State -> State) :
  (forall s, agent_path (f s) = agent_path s /\ trace (f s) = trace s) ->
  keeps (modify f).
Proof.
  intros Hf s Hp. unfold modify. cbn [snd]. destruct (Hf s) as [Ha Ht].
  split; [congruence|]. exists []. split; [now rewrite app_nil_r|constructor].
Qed.

Lemma keeps_log e : at_fixed_path e -> keeps (modify (log e)).
Proof.
  intros He s Hp. unfold modify. cbn [snd]. split; [exact Hp|].
  exists [e]. split; [reflexivity|]. constructor; [exact He|constructor].
Qed.

Lemma keeps_set_agent_path : keeps (modify (set_agent_path "./trained_agent.pkl")).
Proof.
  intros s Hp. split; [reflexivity|].
  exists []. split; [cbn; now rewrite app_nil_r|constructor].
Qed.

Lemma keeps_print msg : keeps (print msg).
Proof. apply keeps_log. intros p [=]. Qed.

Lemma keeps_input prompt : keeps (input prompt).
Proof.
  intros s Hp. unfold input.
  destruct (stdin s); cbn [snd]; (split; [exact Hp|]);
    exists [EInput prompt]; (split; [reflexivity|]);
    (constructor; [intros p [=]|constructor]).
Qed.

Lemma keeps_try {A} (m h : M A) : keeps m -> keeps h -> keeps (try_except_IOError m h).
Proof.
  intros Hm Hh s. unfold try_except_IOError. specialize (Hm s).
  destruct (m s) as [[a| |[]|] s1]; cbn [snd] in *; auto.
  eapply steady_trans; [exact Hm|apply Hh].
Qed.

Lemma keeps_while_true {A} (body : M (option A)) fuel :
  keeps body -> keeps (while_true fuel body).
Proof.
  intros Hb. induction fuel as [|fuel IH]; cbn [while_true].
  - apply keeps_out_of_fuel.
  - apply keeps_bind; [exact Hb|]. intros [a|]; [apply keeps_ret|exact IH].
Qed.

Lemma keeps_while {A} cond (body : M A) fuel :
  keeps body -> keeps (while fuel cond body).
Proof.
  intros Hb. induction fuel as [|fuel IH]; intros s; cbn [while];
    destruct (cond s); try apply steady_refl.
  apply (keeps_bind body (fun _ => while fuel cond body)); auto.
Qed.

Ltac keeps_step :=
  first
    [ apply keeps_bind_path
    | apply keeps_ret | apply keeps_get | apply keeps_raise | apply keeps_sys_exit
    | apply keeps_print | apply keeps_input | apply keeps_set_agent_path
    | apply keeps_log; intros ? [= <-]; reflexivity
    | apply keeps_log; intros ? [=]
    | apply keeps_modify; intros ?; split; reflexivity
    | apply keeps_try
    | apply keeps_while_true
    | apply keeps_while
    | apply keeps_bind; [|intros ?]
    | match goal with
      | |- keeps (if ?b then _ else _) => destruct b
      | |- keeps (match ?x with _ => _ end) => destruct x
      end ].

Lemma keeps_self_agent : keeps self_agent.
Proof. unfold self_agent. repeat keeps_step. Qed.

Lemma keeps_plot_agent_reward r : keeps (plot_agent_reward r).
Proof. unfold plot_agent_reward. repeat keeps_step. Qed.

Lemma keeps_init fuel args al ga ep : keeps (GameLearning.__init__ fuel args al ga ep).
Proof.
  unfold GameLearning.__init__, pickle_load_from, isfile.
  repeat first [apply keeps_self_agent | apply keeps_plot_agent_reward | keeps_step].
Qed.

Lemma keeps_play_again fuel : keeps (GameLearning.play_again fuel).
Proof. unfold GameLearning.play_again. repeat keeps_step. Qed.

(** ** Fuel

    The loops that read input stop at the end of the input at the
    latest, so that fuel beyond the number of lines is never used up. *)

Lemma fine_ret n {A} (a : A) : fine n (ret a).
Proof. intros s _. split; [discriminate|reflexivity]. Qed.

Lemma fine_get n {A} (f : State -> A) : fine n (get f).
Proof. intros s _. split; [discriminate|reflexivity]. Qed.

Lemma fine_raise n {A} e : fine n (@raise A e).
Proof. intros s _. split; [discriminate|reflexivity]. Qed.

Lemma fine_sys_exit n {A} c : fine n (@sys_exit A c).
Proof. intros s _. split; [discriminate|reflexivity]. Qed.

Lemma fine_modify n (f : State -> State) :
  (forall s, stdin (f s) = stdin s) -> fine n (modify f).
Proof. intros Hf s _. split; [discriminate|]. cbn. now rewrite Hf. Qed.

Lemma fine_input n prompt : fine n (input prompt).
Proof.
  intros s _. unfold input.
  destruct (stdin s) eqn:E; cbn; rewrite ?E; split; try discriminate; cbn; lia.
Qed.

Lemma eats_input n prompt : eats n (input prompt).
Proof.
  intros s a _. unfold input.
  destruct (stdin s) eqn:E; cbn; rewrite ?E; [discriminate|cbn; lia].
Qed.

Lemma fine_bind n {A B} (m : M A) (k : A -> M B) :
  fine n m -> (forall a, fine n (k a)) -> fine n (bind m k).
Proof.
  intros Hm Hk s Hs. unfold bind. destruct (Hm s Hs) as [Ho Hl].
  destruct (m s) as [[a| | |] s1]; cbn [fst snd] in *;
    try (split; [discriminate|exact Hl]); [|contradiction].
  destruct (Hk a s1) as [Ho' Hl']; [lia|]. split; [exact Ho'|lia].
Qed.

Lemma eats_bind_l n {A B} (m : M A) (k : A -> M B) :
  eats n m -> fine n m -> (forall a, fine n (k a)) -> eats n (bind m k).
Proof.
  intros He Hm Hk s b Hs. unfold bind. specialize (He s). destruct (Hm s Hs) as [_ Hl].
  destruct (m s) as [[a| | |] s1]; cbn [fst snd] in *; try discriminate.
  intros _. specialize (He a Hs eq_refl).
  destruct (Hk a s1) as [_ Hl']; lia.
Qed.

Lemma eats_bind_r n {A B} (m : M A) (k : A -> M B) :
  fine n m -> (forall a, eats n (k a)) -> eats n (bind m k).
Proof.
  intros Hm Hk s b Hs. unfold bind. destruct (Hm s Hs) as [_ Hl].
  destruct (m s) as [[a| | |] s1]; cbn [fst snd] in *; try discriminate.
  intros Hr. specialize (Hk a s1 b ltac:(lia) Hr). lia.
Qed.

Lemma fine_try n {A} (m h : M A) : fine n m -> fine n h -> fine n (try_except_IOError m h).
Proof.
  intros Hm Hh s Hs. unfold try_except_IOError. destruct (Hm s Hs) as [Ho Hl].
  destruct (m s) as [[a| |[]|] s1]; cbn [fst snd] in *;
    try (split; [discriminate|exact Hl]); [|contradiction].
  destruct (Hh s1) as [Ho' Hl']; [lia|]. split; [exact Ho'|lia].
Qed.

Lemma eats_while_true n {A} (body : M (option A)) fuel :
  eats n body -> eats n (while_true fuel body).
Proof.
  intros Hb. induction fuel as [|fuel IH]; intros s a Hs; [discriminate|].
  cbn [while_true]. unfold bind. specialize (Hb s).
  destruct (body s) as [[[b|]| | |] s1]; cbn [fst snd] in *; try discriminate.
  - intros _. apply (Hb (Some b)); auto.
  - intros Hr. specialize (Hb None Hs eq_refl).
    specialize (IH s1 a ltac:(lia) Hr). lia.
Qed.

Lemma fine_while_true n {A} (body : M (option A)) fuel :
  fine n body -> eats n body -> (n <= fuel)%nat -> fine n (while_true fuel body).
Proof.
  intros Hf He Hn s Hs.
  assert (length (stdin s) < fuel)%nat as Hfuel by lia. clear Hn.
  revert s Hs Hfuel. induction fuel as [|fuel IH]; intros s Hs Hfuel; [lia|].
  cbn [while_true]. unfold bind. destruct (Hf s Hs) as [Ho Hl]. specialize (He s).
  destruct (body s) as [[[b|]| | |] s1]; cbn [fst snd] in *;
    try (split; [discriminate|exact Hl]); [|contradiction].
  specialize (He None Hs eq_refl).
  destruct (IH s1) as [Ho' Hl']; try lia. split; [exact Ho'|lia].
Qed.

Ltac fine_step :=
  first
    [ apply fine_ret | apply fine_get | apply fine_raise | apply fine_sys_exit
    | apply fine_input
    | apply fine_modify; intros ?; reflexivity
    | apply fine_try
    | apply fine_bind; [|intros ?]
    | match goal with
      | |- fine _ (if ?b then _ else _) => destruct b
      | |- fine _ (match ?x with _ => _ end) => destruct x
      end ].

(** The body of a yes/no prompt. *)
Lemma fine_ask n {A} prompt (on_yes on_no : M (option A)) :
  fine n on_yes -> fine n on_no ->
  fine n (do r <- input prompt;
          if says_yes r then on_yes
          else if says_no r then on_no
          else do print invalid_input; ret None)
  /\ eats n (do r <- input prompt;
             if says_yes r then on_yes
             else if says_no r then on_no
             else do print invalid_input; ret None).
Proof.
  intros Hy Hn.
  assert (forall r, fine n (if says_yes r then on_yes
                            else if says_no r then on_no
                            else do print invalid_input; ret None)) as Hk.
  { intros r. unfold print. repeat first [assumption | fine_step]. }
  split.
  - apply fine_bind; [apply fine_input|exact Hk].
  - apply eats_bind_l; [apply eats_input|apply fine_input|exact Hk].
Qed.

Lemma fine_init args al ga ep fuel : fine fuel (GameLearning.__init__ fuel args al ga ep).
Proof.
  unfold GameLearning.__init__, pickle_load_from, isfile, self_agent,
    plot_agent_reward, print.
  repeat first
    [ apply fine_while_true; [apply fine_ask| apply fine_ask | reflexivity]
    | fine_step ].
Qed.

Lemma fine_play_again fuel :
  fine fuel (GameLearning.play_again fuel) /\ eats fuel (GameLearning.play_again fuel).
Proof.
  unfold GameLearning.play_again, print.
  assert (fine fuel (ret (Some true)) /\ fine fuel (ret (Some false))) as [Hy Hn]
    by (split; apply fine_ret).
  destruct (fine_ask fuel GameLearning.again_prompt _ _ Hy Hn) as [Hf He].
  split.
  - repeat first [apply fine_while_true; [exact Hf|exact He|reflexivity] | fine_step].
  - apply eats_bind_r; [fine_step|intros ?].
    apply eats_bind_r; [fine_step|intros ?].
    apply eats_while_true. exact He.
Qed.

(** * Further properties *)

(** ** Stretches of a run that leave the file system alone *)

Section Quiet.

Variable allowed : event -> bool.

Lemma quiet_refl s : quiet allowed s s.
Proof.
  split; [reflexivity|]. exists []. split; [now rewrite app_nil_r|constructor].
Qed.

Lemma quiet_trans s1 s2 s3 :
  quiet allowed s1 s2 -> quiet allowed s2 s3 -> quiet allowed s1 s3.
Proof.
  intros [F12 (a & Ha & Pa)] [F23 (b & Hb & Pb)]. split; [congruence|].
  exists (a ++ b). split; [now rewrite Hb, Ha, app_assoc|now apply Forall_app].
Qed.

Lemma quiet_ret {A} (a : A) : stays_quiet allowed (ret a).
Proof. intros s. apply quiet_refl. Qed.

Lemma quiet_get {A} (f : State -> A) : stays_quiet allowed (get f).
Proof. intros s. apply quiet_refl. Qed.

Lemma quiet_raise {A} e : stays_quiet allowed (@raise A e).
Proof. intros s. apply quiet_refl. Qed.

Lemma quiet_sys_exit {A} c : stays_quiet allowed (@sys_exit A c).
Proof. intros s. apply quiet_refl. Qed.

Lemma quiet_out_of_fuel {A} : stays_quiet allowed (@out_of_fuel A).
Proof. intros s. apply quiet_refl. Qed.

Lemma quiet_modify (f : State -> State) :
  (forall s, fs (f s) = fs s /\ trace (f s) = trace s) ->
  stays_quiet allowed (modify f).
Proof.
  intros Hf s. destruct (Hf s) as [Hfs Ht]. split; [exact Hfs|].
  exists []. cbn. split; [now rewrite Ht, app_nil_r|constructor].
Qed.

Lemma quiet_log e : allowed e = true -> stays_quiet allowed (modify (log e)).
Proof.
  intros He s. split; [reflexivity|].
  exists [e]. split; [reflexivity|]. constructor; [exact He|constructor].
Qed.

Lemma quiet_input prompt :
  allowed (EInput prompt) = true -> stays_quiet allowed (input prompt).
Proof.
  intros He s. unfold input.
  destruct (stdin s); (split; [reflexivity|]); exists [EInput prompt];
    (split; [reflexivity|]); (constructor; [exact He|constructor]).
Qed.

Lemma quiet_bind {A B} (m : M A) (k : A -> M B) :
  stays_quiet allowed m -> (forall a, stays_quiet allowed (k a)) ->
  stays_quiet allowed (bind m k).
Proof.
  intros Hm Hk s. unfold bind. specialize (Hm s).
  destruct (m s) as [[a| | |] s1]; cbn [snd] in *; auto.
  eapply quiet_trans; [exact Hm|apply Hk].
Qed.

Lemma quiet_try {A} (m h : M A) :
  stays_quiet allowed m -> stays_quiet allowed h ->
  stays_quiet allowed (try_except_IOError m h).
Proof.
  intros Hm Hh s. unfold try_except_IOError. specialize (Hm s).
  destruct (m s) as [[a| |[]|] s1]; cbn [snd] in *; auto.
  eapply quiet_trans; [exact Hm|apply Hh].
Qed.

Lemma quiet_while_true {A} (body : M (option A)) fuel :
  stays_quiet allowed body -> stays_quiet allowed (while_true fuel body).
Proof.
  intros Hb. induction fuel as [|fuel IH]; cbn [while_true].
  - apply quiet_out_of_fuel.
  - apply quiet_bind; [exact Hb|]. intros [a|]; [apply quiet_ret|exact IH].
Qed.

Lemma quiet_while {A} cond (body : M A) fuel :
  stays_quiet allowed body -> stays_quiet allowed (while fuel cond body).
Proof.
  intros Hb. induction fuel as [|fuel IH]; intros s; cbn [while];
    destruct (cond s); try apply quiet_refl.
  apply (quiet_bind body (fun _ => while fuel cond body)); auto.
Qed.

End Quiet.

Ltac quiet_step :=
  first
    [ apply quiet_ret | apply quiet_get | apply quiet_raise | apply quiet_sys_exit
    | apply quiet_input; reflexivity
    | apply quiet_log; reflexivity
    | apply quiet_modify; intros ?; split; reflexivity
    | apply quiet_try
    | apply quiet_while_true
    | apply quiet_while
    | apply quiet_bind; [|intros ?]
    | match goal with
      | |- stays_quiet _ (if ?b then _ else _) => destruct b
      | |- stays_quiet _ (match ?x with _ => _ end) => destruct x
      end ].

(** Whatever it does and however it ends, the constructor leaves the
    file system alone, and plays no game and saves nothing. *)
Lemma quiet_init fuel args al ga ep :
  stays_quiet (fun e => negb (is_game e || is_save e))
              (GameLearning.__init__ fuel args al ga ep).
Proof.
  unfold GameLearning.__init__, pickle_load_from, isfile, self_agent,
    plot_agent_reward, print.
  repeat quiet_step.
Qed.

(** Without the load flag it does not open the agent file either. *)
Lemma quiet_init_fresh fuel args al ga ep :
  load args = false ->
  stays_quiet (fun e => negb (is_open e || is_game e || is_save e || is_plot e))
              (GameLearning.__init__ fuel args al ga ep).
Proof.
  intros Hl. unfold GameLearning.__init__. rewrite Hl.
  unfold isfile, print. repeat quiet_step.
Qed.

Lemma quiet_play_again allowed fuel :
  (forall msg, allowed (EPrint msg) = true) ->
  (forall p, allowed (EInput p) = true) ->
  stays_quiet allowed (GameLearning.play_again fuel).
Proof.
  intros Hp Hi. unfold GameLearning.play_again, print.
  repeat first [apply quiet_input; apply Hi | apply quiet_log; apply Hp | quiet_step].
Qed.

(** A sequence goes on after its first part returned, and ends with it
    otherwise. *)
Lemma bind_split {A B} (m : M A) (k : A -> M B) s :
  (exists a s1, m s = (Ret a, s1) /\ bind m k s = k a s1)
  \/ ((forall b, fst (bind m k s) <> Ret b) /\ snd (bind m k s) = snd (m s)).
Proof.
  unfold bind. destruct (m s) as [[a| | |] s1]; cbn [fst snd];
    [left; eauto|right..]; (split; [discriminate|reflexivity]).
Qed.

(** A yes/no prompt whose input ends before an answer has asked again
    after each line and then stops on the EOFError of [input]. *)
Lemma while_true_reprompt_eof {A} prompt (on_yes on_no : M (option A)) fuel s :
  Forall (fun r => answer r = None) (stdin s) ->
  (length (stdin s) < fuel)%nat ->
  while_true fuel
    (do r <- input prompt;
     if says_yes r then on_yes
     else if says_no r then on_no
     else do print invalid_input; ret None) s
  = (Raise EOFError,
     set_stdin [] (add_trace (reprompts prompt (stdin s) ++ [EInput prompt]) s)).
Proof.
  intros Hj Hfuel.
  replace fuel with (length (stdin s) + S (fuel - length (stdin s) - 1))%nat by lia.
  rewrite (while_true_reprompt _ _ _ (stdin s) _ []);
    [|assumption|now rewrite app_nil_r].
  cbn [while_true]. unfold bind at 1. unfold input at 1. cbn [stdin set_stdin].
  destruct s; unfold set_stdin, log, add_trace; cbn. now rewrite <- app_assoc.
Qed.

Lemma bind_assoc {A B C} (m : M A) (k : A -> M B) (c : B -> M C) s :
  bind (bind m k) c s = bind m (fun a => bind (k a) c) s.
Proof. unfold bind. destruct (m s) as [[a| | |] s1]; reflexivity. Qed.

(** A yes/no prompt that has any fuel begins by showing the prompt. *)
Lemma while_true_prompts_first {A} prompt (on_yes on_no : M (option A)) fuel s :
  stays_quiet (fun _ => true) on_yes ->
  stays_quiet (fun _ => true) on_no ->
  (0 < fuel)%nat ->
  exists rest,
    trace (snd (while_true fuel
                  (do r <- input prompt;
                   if says_yes r then on_yes
                   else if says_no r then on_no
                   else do print invalid_input; ret None) s))
    = trace s ++ EInput prompt :: rest.
Proof.
  intros Hy Hn Hfuel. destruct fuel as [|fuel]; [lia|].
  cbn [while_true]. rewrite bind_assoc.
  match goal with |- context [bind (input prompt) ?k s] =>
    assert (forall r, stays_quiet (fun _ => true) (k r)) as Hk;
    [|destruct (bind_split (input prompt) k s) as [(l & s1 & Hin & ->)|[_ ->]]]
  end.
  - intros r. apply quiet_bind.
    + unfold print. repeat first [assumption | quiet_step].
    + intros [a|]; [apply quiet_ret|].
      apply quiet_while_true. unfold print.
      repeat first [assumption | quiet_step].
  - destruct (Hk l s1) as [_ (rest & -> & _)].
    unfold input in Hin. destruct (stdin s); [discriminate|].
    injection Hin as _ <-. cbn [trace set_stdin log add_trace].
    rewrite <- app_assoc. eauto.
  - unfold input. destruct (stdin s); cbn [snd trace set_stdin log add_trace]; eauto.
Qed.

(** ** More on the plotted series *)

Section SeriesGrowth.

Context {R : Type} (add : R -> R -> R).

(** The points plotted so far stay as they are while the loop goes on. *)
Lemma accumulate_from acc total l :
  fst (fold_left (accumulate add) l (acc, total))
  = acc ++ fst (fold_left (accumulate add) l ([], total)).
Proof.
  revert acc total. induction l as [|x l IH]; intros acc total.
  - cbn. now rewrite app_nil_r.
  - cbn [fold_left]. unfold accumulate at 2 4. cbn [fst snd app].
    rewrite (IH (acc ++ [add total x])), (IH [add total x]).
    now rewrite <- app_assoc.
Qed.

Lemma accumulate_cons total x l :
  fst (fold_left (accumulate add) (x :: l) ([], total))
  = add total x :: fst (fold_left (accumulate add) l ([], add total x)).
Proof.
  cbn [fold_left]. unfold accumulate at 2. cbn [fst snd app].
  now rewrite accumulate_from.
Qed.

(** X13: more rewards only add points to the plot: the series plotted
    for a reward history is the beginning of the series plotted for any
    longer history that starts with it, so that the curve of an agent
    that is trained further extends the curve it had. *)
Theorem cumulative_extends zero l l' :
  cumulative add zero l `prefix_of` cumulative add zero (l ++ l').
Proof.
  unfold cumulative. rewrite fold_left_app.
  destruct (fold_left (accumulate add) l ([], zero)) as [acc total].
  rewrite accumulate_from. cbn [fst]. apply prefix_app_r. reflexivity.
Qed.

End SeriesGrowth.

Lemma steps_from_accumulate l : forall total,
  steps_from total (fst (fold_left (accumulate Z.add) l ([], total))) = l.
Proof.
  induction l as [|x l IH]; intros total; [reflexivity|].
  rewrite accumulate_cons. cbn [steps_from]. rewrite IH. f_equal. lia.
Qed.

(** X14: the plot loses nothing: taking each plotted point less the
    point before it (the first as it is) gives back the rewards, so two
    reward histories with the same plot are the same. *)
Theorem differences_cumulative_rewards l :
  differences (cumulative_rewards l) = l
  /\ (forall l', cumulative_rewards l = cumulative_rewards l' -> l = l').
Proof.
  assert (forall l0, differences (cumulative_rewards l0) = l0) as Hback.
  { intros l0. apply steps_from_accumulate. }
  split; [apply Hback|].
  intros l' E. rewrite <- (Hback l), <- (Hback l'). now rewrite E.
Qed.

(** ** The lines that monitor teaching *)

Lemma thousand_step g :
  (g + 1) / 1000 = g / 1000 + (if (g + 1) mod 1000 =? 0 then 1 else 0).
Proof.
  destruct (Z.eqb_spec ((g + 1) mod 1000) 0) as [E|NE]; cbv iota;
    Z.div_mod_to_equations; lia.
Qed.

Lemma progress_lines_app t t' :
  progress_lines (t ++ t') = progress_lines t ++ progress_lines t'.
Proof.
  induction t as [|e t IH]; [reflexivity|].
  destruct e; cbn [app progress_lines]; rewrite IH; reflexivity.
Qed.

Lemma progress_lines_teaching k : forall g,
  progress_lines (teaching_trace g k) =
  map (fun i => "Games played: " +:+ pretty (1000 * i))
      (seqZ (g / 1000 + 1) ((g + Z.of_nat k) / 1000 - g / 1000)).
Proof.
  induction k as [|k IH]; intros g.
  - rewrite Z.add_0_r, Z.sub_diag. reflexivity.
  - cbn [teaching_trace progress_lines]. rewrite progress_lines_app, IH.
    replace (g + 1 + Z.of_nat k) with (g + Z.of_nat (S k)) by lia.
    pose proof (thousand_step g) as Hstep.
    assert ((g + 1) / 1000 <= (g + Z.of_nat (S k)) / 1000) as Hmono
      by (apply Z.div_le_mono; lia).
    revert Hstep.
    destruct (Z.eqb_spec ((g + 1) mod 1000) 0) as [E|NE]; intros Hstep.
    + rewrite (seqZ_cons (g / 1000 + 1)) by lia.
      cbn [progress_lines map app].
      replace (1000 * (g / 1000 + 1)) with (g + 1)
        by (Z.div_mod_to_equations; lia).
      replace (Z.succ (g / 1000 + 1)) with ((g + 1) / 1000 + 1) by lia.
      replace (Z.pred ((g + Z.of_nat (S k)) / 1000 - g / 1000))
        with ((g + Z.of_nat (S k)) / 1000 - (g + 1) / 1000) by lia.
      reflexivity.
    + cbn [progress_lines app]. rewrite Hstep, Z.add_0_r. reflexivity.
Qed.

(** ** Computations that leave the file system out *)

Lemma ignores_ret {A} (a : A) : ignores_files (ret a).
Proof. intros s files. reflexivity. Qed.

Lemma ignores_get {A} (f : State -> A) :
  (forall s files, f (set_fs files s) = f s) -> ignores_files (get f).
Proof. intros Hf s files. unfold get. cbn [fst snd]. now rewrite Hf. Qed.

Lemma ignores_modify (f : State -> State) :
  (forall s files, f (set_fs files s) = set_fs files (f s)) ->
  ignores_files (modify f).
Proof. intros Hf s files. unfold modify. cbn [fst snd]. now rewrite Hf. Qed.

Lemma ignores_raise {A} e : ignores_files (@raise A e).
Proof. intros s files. reflexivity. Qed.

Lemma ignores_sys_exit {A} c : ignores_files (@sys_exit A c).
Proof. intros s files. reflexivity. Qed.

Lemma ignores_out_of_fuel {A} : ignores_files (@out_of_fuel A).
Proof. intros s files. reflexivity. Qed.

Lemma ignores_input prompt : ignores_files (input prompt).
Proof.
  intros s files. unfold input. cbn [stdin set_fs]. destruct (stdin s); reflexivity.
Qed.

Lemma ignores_bind {A B} (m : M A) (k : A -> M B) :
  ignores_files m -> (forall a, ignores_files (k a)) -> ignores_files (bind m k).
Proof.
  intros Hm Hk s files. unfold bind. rewrite Hm.
  destruct (m s) as [[a| | |] s1]; cbn [fst snd]; try reflexivity.
  apply Hk.
Qed.

Lemma ignores_while_true {A} (body : M (option A)) fuel :
  ignores_files body -> ignores_files (while_true fuel body).
Proof.
  intros Hb. induction fuel as [|fuel IH]; cbn [while_true].
  - apply ignores_out_of_fuel.
  - apply ignores_bind; [exact Hb|]. intros [a|]; [apply ignores_ret|exact IH].
Qed.

Lemma ignores_while {A} (cond : State -> bool) (body : M A) fuel :
  (forall s files, cond (set_fs files s) = cond s) ->
  ignores_files body -> ignores_files (while fuel cond body).
Proof.
  intros Hc Hb. induction fuel as [|fuel IH]; intros s files; cbn [while];
    rewrite Hc; destruct (cond s); try reflexivity.
  apply (ignores_bind body (fun _ => while fuel cond body)); auto.
Qed.

(** What ignores the file system leaves it as it was. *)
Lemma ignores_files_fs {A} (m : M A) s : ignores_files m -> fs (snd (m s)) = fs s.
Proof.
  intros Hm. specialize (Hm s (fs s)).
  replace (set_fs (fs s) s) with s in Hm by (now destruct s).
  rewrite Hm at 1. reflexivity.
Qed.

Ltac ignores_step :=
  first
    [ apply ignores_ret | apply ignores_raise | apply ignores_sys_exit
    | apply ignores_input
    | apply ignores_get; reflexivity
    | apply ignores_modify; reflexivity
    | apply ignores_while_true
    | apply ignores_while; [reflexivity|]
    | apply ignores_bind; [|intros ?]
    | match goal with
      | |- ignores_files (if ?b then _ else _) => destruct b
      | |- ignores_files (match ?x with _ => _ end) => destruct x
      end ].

Lemma ignores_play_again fuel : ignores_files (GameLearning.play_again fuel).
Proof. unfold GameLearning.play_again, print. repeat ignores_step. Qed.

(** The overwrite dialogue and the assignment of the fresh agent. *)
Lemma ignores_overwrite_dialogue fuel (fresh : Qlearner) :
  ignores_files
    (do (while_true fuel
          (do response <- input GameLearning.overwrite_prompt;
           if says_yes response then ret (Some tt)
           else if says_no response then
             do print "OK. Quitting."; sys_exit 0
           else do print invalid_input; ret None));
     modify (set_agent (Some fresh))).
Proof. unfold print. repeat ignores_step. Qed.

(** Without the load flag the constructor takes from the file system
    only whether there is a file at the fixed path. *)
Lemma init_other_files fuel args al ga ep s files :
  load args = false ->
  (is_Some (files !! trained_agent) <-> is_Some (fs s !! trained_agent)) ->
  GameLearning.__init__ fuel args al ga ep (set_fs files s) =
  (fst (GameLearning.__init__ fuel args al ga ep s),
   set_fs files (snd (GameLearning.__init__ fuel args al ga ep s))).
Proof.
  intros Hl Hsame.
  destruct (decide (is_Some (fs s !! trained_agent))) as [Hs|Hs].
  - assert (is_Some (fs (set_fs files s) !! trained_agent)) as Hs2 by (apply Hsame, Hs).
    rewrite (init_fresh_unfold _ _ _ _ _ _ Hl Hs), (init_fresh_unfold _ _ _ _ _ _ Hl Hs2).
    apply (ignores_overwrite_dialogue fuel _
             (mkState 0 trained_agent (agent s) (fs s) (stdin s) (rng s)
                      (trace s ++ [EIsFile trained_agent])) files).
  - assert (fs (set_fs files s) !! trained_agent = None) as Hf2.
    { apply eq_None_not_Some. intros H. apply Hs, Hsame, H. }
    apply eq_None_not_Some in Hs.
    rewrite (init_no_file _ _ _ _ _ _ Hl Hs), (init_no_file _ _ _ _ _ _ Hl Hf2).
    reflexivity.
Qed.

(** ** The script *)

Section MainProperties.

Variable teacher_game : Qlearner -> nat -> Qlearner * nat.
Variable human_game : Qlearner -> nat -> list string -> game_result.

Local Abbreviation script := (main teacher_game human_game).

(** Flags that pass the two assertions. *)
Lemma main_consistent fuel args s :
  (plot args = true -> load args = true /\ teacher_episodes args = None) ->
  script fuel args s =
  (do GameLearning.__init__ fuel args None None None;
   match teacher_episodes args with
   | Some episodes => GameLearning.beginTeaching teacher_game fuel episodes
   | None => GameLearning.beginPlaying human_game fuel
   end) s.
Proof.
  intros H. unfold main. unfold bind at 1.
  destruct (plot args); [|reflexivity].
  destruct H as [-> ->]; reflexivity.
Qed.

Lemma main_conflict fuel args s :
  plot args = true ->
  load args = false \/ teacher_episodes args <> None ->
  script fuel args s =
  (Raise (AssertionError (if load args then plot_or_teach else must_load)), s).
Proof.
  intros Hp H. unfold main. rewrite Hp.
  destruct (load args) eqn:Hl.
  - destruct H as [H|H]; [discriminate|].
    destruct (teacher_episodes args) eqn:Ht; [reflexivity|contradiction].
  - reflexivity.
Qed.

(** C3: when the plot flag comes without the load flag, or together
    with a number of teacher episodes, the script stops on a failed
    assertion that carries the explanation, in the state it started
    in: no attribute of a GameLearning was assigned, no file was
    opened, looked for or written, nothing was printed or read. *)
Theorem conflicting_flags_fail_fast fuel args s :
  plot args = true ->
  load args = false \/ teacher_episodes args <> None ->
  script fuel args s =
  (Raise (AssertionError
            (if load args then
               "Cannot plot and teach concurrently; must choose one or the other."
             else "Must load an agent to plot reward.")), s).
Proof.
  intros Hp H. unfold main. rewrite Hp.
  unfold bind at 1, assert.
  destruct (load args) eqn:Hl.
  - destruct H as [H|H]; [discriminate|].
    destruct (teacher_episodes args) eqn:Ht; [reflexivity|contradiction].
  - reflexivity.
Qed.

(** C1, as the code has it: in a run with the load flag, when opening
    the agent file fails because there is no file at the fixed path, the
    script prints that the agent file does not exist and exits with
    status 0; nothing else happened but the attempt to open the file. *)
Theorem load_failure fuel args s :
  load args = true ->
  (plot args = true -> teacher_episodes args = None) ->
  fs s !! trained_agent = None ->
  script fuel args s =
  (SysExit 0,
   mkState 0 trained_agent (agent s) (fs s) (stdin s) (rng s)
           (trace s ++ [EOpen trained_agent;
                        EPrint "The agent file does not exist. Quitting."])).
Proof.
  intros Hl Hp Hf. rewrite main_consistent by auto. unfold bind at 1.
  now rewrite init_missing_file.
Qed.

(** A file that is there and is no pickle: the UnpicklingError is not an
    IOError, is not caught and ends the run. *)
Lemma load_corrupt fuel args s :
  load args = true ->
  (plot args = true -> teacher_episodes args = None) ->
  fs s !! trained_agent = Some Corrupt ->
  script fuel args s =
  (Raise UnpicklingError,
   mkState 0 trained_agent (agent s) (fs s) (stdin s) (rng s)
           (trace s ++ [EOpen trained_agent])).
Proof.
  intros Hl Hp Hf. rewrite main_consistent by auto. unfold bind at 1.
  now rewrite init_corrupt_file.
Qed.

(** C4: with the load and plot flags set and a pickled agent at the
    fixed path, the constructor loads that agent, plots the running sum
    of its rewards and exits with status 0, and so does the script when
    no teacher episodes are asked for.  The trace holds the opening of
    the file and the plot and no game, the count of games is 0, the
    agent in memory is the one that was loaded and the file system is as
    it was. *)
Theorem load_and_plot fuel args s ag :
  load args = true ->
  plot args = true ->
  fs s !! trained_agent = Some (Pickled ag) ->
  let exited :=
    (SysExit 0,
     mkState 0 trained_agent (Some ag) (fs s) (stdin s) (rng s)
             (trace s ++ [EOpen trained_agent;
                          EPlot (cumulative_rewards (Agent.rewards ag))])) in
  GameLearning.__init__ fuel args None None None s = exited /\
  (teacher_episodes args = None -> script fuel args s = exited).
Proof.
  intros Hl Hp Hf exited. split.
  - now apply init_load_and_plot.
  - intros Ht. rewrite main_consistent by auto. unfold bind at 1.
    now rewrite (init_load_and_plot _ _ _ _ _ _ ag).
Qed.

(** ** Teaching *)

Lemma teaching_round_runs s ag :
  agent s = Some ag ->
  GameLearning.teaching_round teacher_game s =
  (Ret tt,
   mkState (games_played s + 1) (agent_path s)
           (Some (fst (teacher_game ag (rng s)))) (fs s) (stdin s)
           (snd (teacher_game ag (rng s)))
           (trace s ++ teaching_trace (games_played s) 1)).
Proof.
  intros Ha. unfold GameLearning.teaching_round, GameLearning.start_teacher_game.
  unfold bind at 1 2. unfold self_agent at 1, bind at 1, get at 1. rewrite Ha.
  unfold ret at 1. unfold bind at 1, modify at 1. unfold bind at 1, get at 1.
  cbn [rng log add_trace].
  destruct (teacher_game ag (rng s)) as [ag' r'].
  unfold bind at 1, modify at 1. unfold modify at 1.
  unfold bind at 1, GameLearning.count_game, modify at 1.
  unfold bind at 1, get at 1.
  unfold set_games_played, set_agent, set_rng, log, add_trace.
  cbn [games_played agent_path agent fs stdin rng trace fst snd teaching_trace].
  rewrite app_nil_r.
  destruct ((games_played s + 1) mod 1000 =? 0);
    unfold print, modify, ret, log, add_trace; simpl;
    rewrite ?app_nil_r, <- ?app_assoc; reflexivity.
Qed.

Lemma train_S k : forall ag r,
  train teacher_game (S k) ag r =
  train teacher_game k (fst (teacher_game ag r)) (snd (teacher_game ag r)).
Proof. intros ag r. simpl. now destruct (teacher_game ag r). Qed.

Lemma teaching_loop_runs episodes k : forall fuel s ag,
  agent s = Some ag ->
  k = Z.to_nat (episodes - games_played s) ->
  (k <= fuel)%nat ->
  while fuel (fun s => games_played s <? episodes)
        (GameLearning.teaching_round teacher_game) s =
  (Ret tt,
   mkState (Z.max (games_played s) episodes) (agent_path s)
           (Some (fst (train teacher_game k ag (rng s)))) (fs s) (stdin s)
           (snd (train teacher_game k ag (rng s)))
           (trace s ++ teaching_trace (games_played s) k)).
Proof.
  induction k as [|k IH]; intros fuel s ag Ha Hk Hfuel.
  - assert ((games_played s <? episodes) = false) as Hc by lia.
    destruct fuel; cbn [while]; rewrite Hc; unfold ret;
      destruct s; simpl in *; rewrite app_nil_r; repeat f_equal; auto; lia.
  - destruct fuel as [|fuel]; [lia|].
    assert ((games_played s <? episodes) = true) as Hc by lia.
    cbn [while]. rewrite Hc. unfold bind at 1.
    rewrite (teaching_round_runs s ag Ha).
    rewrite (IH fuel _ (fst (teacher_game ag (rng s)))); cbn [agent games_played]; try lia; auto.
    cbn [agent_path fs stdin rng trace]. rewrite train_S.
    cbn [teaching_trace]. rewrite app_nil_r, <- app_assoc.
    replace (Z.max (games_played s + 1) episodes) with (Z.max (games_played s) episodes) by lia.
    reflexivity.
Qed.

Lemma beginTeaching_runs fuel episodes s ag :
  agent s = Some ag ->
  (Z.to_nat (episodes - games_played s) <= fuel)%nat ->
  let k := Z.to_nat (episodes - games_played s) in
  let ag' := fst (train teacher_game k ag (rng s)) in
  GameLearning.beginTeaching teacher_game fuel episodes s =
  (Ret tt,
   mkState (Z.max (games_played s) episodes) (agent_path s) (Some ag')
           (<[agent_path s := Pickled ag']> (fs s)) (stdin s)
           (snd (train teacher_game k ag (rng s)))
           (trace s ++ teaching_trace (games_played s) k
              ++ [EPlot (cumulative_rewards (Agent.rewards ag')); ESave (agent_path s)])).
Proof.
  intros Ha Hfuel k ag'. unfold GameLearning.beginTeaching.
  unfold bind at 1.
  rewrite (teaching_loop_runs episodes k fuel s ag); auto.
  cbv [bind self_agent get ret plot_agent_reward save_agent modify log add_trace
       set_fs games_played agent_path agent fs stdin rng trace].
  rewrite <- !app_assoc. reflexivity.
Qed.

Lemma teaching_trace_games k : forall g, games_in (teaching_trace g k) = k.
Proof.
  induction k as [|k IH]; intros g; [reflexivity|].
  cbn [teaching_trace games_in].
  destruct ((g + 1) mod 1000 =? 0); simpl; now rewrite IH.
Qed.

Lemma teaching_trace_events k : forall g, Forall game_or_print (teaching_trace g k).
Proof.
  induction k as [|k IH]; intros g; [constructor|].
  cbn [teaching_trace]. constructor; [exact I|].
  destruct ((g + 1) mod 1000 =? 0); simpl; [constructor; [exact I|]|]; apply IH.
Qed.

(** C2: called for [episodes] games with an agent in place,
    [beginTeaching] returns.  When no more than [episodes] games were
    played before, as after construction for every count of 0 or more,
    the count of games ends at exactly [episodes]; it played
    [episodes - games_played] games against the teacher, one per round
    and none when that is negative, without reading a line of input.
    The plot of the agent's reward history and then the saving of the
    agent come after all the games, as the last two events, and the file
    at the agent path then holds the trained agent. *)
Theorem beginTeaching_plays_all fuel episodes s ag :
  agent s = Some ag ->
  (Z.to_nat (episodes - games_played s) <= fuel)%nat ->
  exists s' ag' played,
    GameLearning.beginTeaching teacher_game fuel episodes s = (Ret tt, s') /\
    (games_played s <= episodes -> games_played s' = episodes) /\
    games_played s' = Z.max (games_played s) episodes /\
    games_in played = Z.to_nat (episodes - games_played s) /\
    Forall game_or_print played /\
    trace s' = trace s ++ played
                 ++ [EPlot (cumulative_rewards (Agent.rewards ag'));
                     ESave (agent_path s)] /\
    agent s' = Some ag' /\
    ag' = fst (train teacher_game (Z.to_nat (episodes - games_played s)) ag (rng s)) /\
    fs s' = <[agent_path s := Pickled ag']> (fs s) /\
    stdin s' = stdin s.
Proof.
  intros Ha Hfuel.
  eexists _, _, (teaching_trace (games_played s) (Z.to_nat (episodes - games_played s))).
  split; [apply (beginTeaching_runs fuel episodes s ag); assumption|].
  cbn [games_played trace agent fs stdin].
  split; [lia|].
  repeat split; auto using teaching_trace_games, teaching_trace_events.
Qed.

(** ** Playing *)

Lemma play_again_runs fuel s junk ans rest b :
  stdin s = junk ++ ans :: rest ->
  Forall (fun l => answer l = None) junk ->
  answer ans = Some b ->
  (length junk < fuel)%nat ->
  GameLearning.play_again fuel s =
  (Ret b,
   set_stdin rest
     (add_trace ([EPrint ("Games played: " +:+ pretty (games_played s))]
                   ++ reprompts GameLearning.again_prompt junk
                   ++ [EInput GameLearning.again_prompt]) s)).
Proof.
  intros Hs Hj Ha Hfuel. unfold GameLearning.play_again.
  unfold bind at 1, get at 1. unfold bind at 1, print at 1, modify at 1.
  replace fuel with (length junk + S (fuel - length junk - 1))%nat by lia.
  rewrite (while_true_reprompt _ _ _ junk _ (ans :: rest)); [|assumption|exact Hs].
  apply answer_Some in Ha as [Hy Hn].
  cbn [while_true]. unfold bind at 1 2. unfold input at 1. cbn [stdin set_stdin].
  rewrite Hy. destruct b.
  - cbv [ret set_stdin log add_trace games_played agent_path agent fs stdin rng trace].
    now rewrite <- ?app_assoc.
  - rewrite Hn by reflexivity.
    cbv [ret set_stdin log add_trace games_played agent_path agent fs stdin rng trace].
    now rewrite <- ?app_assoc.
Qed.

Lemma playing_round_runs fuel s ag ag' r' consumed junk ans rest b :
  agent s = Some ag ->
  human_game ag (rng s) (stdin s) = GameOver ag' r' consumed ->
  drop consumed (stdin s) = junk ++ ans :: rest ->
  Forall (fun l => answer l = None) junk ->
  answer ans = Some b ->
  (length junk < fuel)%nat ->
  GameLearning.playing_round human_game fuel s =
  (Ret (if b then None else Some tt), after_round s ag' r' junk rest b).
Proof.
  intros Hag Hg Hd Hj Ha Hfuel.
  unfold GameLearning.playing_round, GameLearning.start_human_game.
  unfold bind at 1 2. unfold self_agent at 1, bind at 1, get at 1. rewrite Hag.
  unfold ret at 1. unfold bind at 1, modify at 1.
  unfold bind at 1, get at 1. unfold bind at 1, get at 1.
  cbn [rng stdin log add_trace]. rewrite Hg.
  unfold bind at 1, modify at 1. unfold bind at 1, modify at 1. unfold modify at 1.
  unfold bind at 1, GameLearning.count_game, modify at 1.
  unfold bind at 1.
  erewrite play_again_runs; [| |exact Hj|exact Ha|exact Hfuel];
    [|cbn [stdin set_games_played set_agent set_rng set_stdin]; exact Hd].
  unfold after_round.
  destruct b; cbn [negb]; unfold bind, print, modify, ret;
    unfold set_games_played, set_agent, set_rng, set_stdin, log, add_trace;
    cbn [games_played agent_path agent fs stdin rng trace];
    rewrite <- ?app_assoc; cbn [app]; rewrite ?app_nil_r; reflexivity.
Qed.

Lemma round_input_left (s : State) consumed junk (ans : string) rest :
  drop consumed (stdin s) = junk ++ ans :: rest ->
  (length junk < length (stdin s) /\ length rest < length (stdin s))%nat.
Proof.
  intros Hd. apply (f_equal length) in Hd.
  rewrite length_drop, length_app in Hd. simpl in Hd. lia.
Qed.

Lemma session_runs s n s' :
  session human_game s n s' ->
  forall fuel_in fuel_out,
    (length (stdin s) < fuel_in)%nat ->
    (n <= fuel_out)%nat ->
    while_true fuel_out (GameLearning.playing_round human_game fuel_in) s = (Ret tt, s').
Proof.
  induction 1 as [s ag ag' r' consumed junk ans rest Hag Hg Hd Hj Ha
                 |s ag ag' r' consumed junk ans rest n s' Hag Hg Hd Hj Ha Hs IH];
    intros fuel_in fuel_out Hin Hout;
    (destruct fuel_out as [|fuel_out]; [lia|]);
    destruct (round_input_left _ _ _ _ _ Hd) as [Hjl Hrl];
    apply no_answers_read_all in Hj;
    first [apply no_answers_read in Ha | apply yes_answers_read in Ha];
    cbn [while_true]; unfold bind at 1;
    erewrite playing_round_runs by (eauto; lia).
  - reflexivity.
  - apply IH; cbn [after_round stdin]; lia.
Qed.

Lemma games_in_app t t' : games_in (t ++ t') = (games_in t + games_in t')%nat.
Proof.
  induction t as [|e t IH]; [reflexivity|].
  destruct e; simpl; rewrite IH; reflexivity.
Qed.

Lemma games_in_reprompts prompt junk : games_in (reprompts prompt junk) = 0%nat.
Proof. induction junk as [|l junk IH]; [reflexivity|exact IH]. Qed.

Lemma session_counts s n s' :
  session human_game s n s' ->
  games_played s' = games_played s + Z.of_nat n /\
  (exists added, trace s' = trace s ++ added /\ games_in added = n) /\
  (n <= length (stdin s))%nat.
Proof.
  induction 1 as [s ag ag' r' consumed junk ans rest Hag Hg Hd Hj Ha
                 |s ag ag' r' consumed junk ans rest n s' Hag Hg Hd Hj Ha Hs IH];
    destruct (round_input_left _ _ _ _ _ Hd) as [Hjl Hrl].
  - cbn [after_round games_played trace]. split; [lia|]. split; [|lia].
    eexists. split; [reflexivity|].
    rewrite !games_in_app, games_in_reprompts. reflexivity.
  - destruct IH as (Hgp & (added & Htr & Hgames) & Hlen).
    cbn [after_round games_played trace stdin] in *.
    split; [lia|]. split; [|lia].
    eexists. split; [rewrite Htr, <- app_assoc; reflexivity|].
    rewrite !games_in_app, games_in_reprompts, Hgames. simpl. lia.
Qed.

Lemma play_again_inv fuel s b s1 :
  GameLearning.play_again fuel s = (Ret b, s1) ->
  exists junk ans rest,
    stdin s = junk ++ ans :: rest /\
    Forall (fun l => answer l = None) junk /\
    answer ans = Some b /\
    (length junk < fuel)%nat.
Proof.
  intros H. pose proof H as H0. unfold GameLearning.play_again in H0.
  unfold bind at 1, get at 1 in H0. unfold bind at 1, print at 1, modify at 1 in H0.
  apply while_true_reprompt_inv in H0 as (junk & ans & rest & b' & Hs & Hj & Ha & Hlen).
  cbn [log add_trace stdin] in Hs.
  rewrite (play_again_runs fuel s junk ans rest b' Hs Hj Ha Hlen) in H.
  injection H as <- _. eauto 10.
Qed.

Lemma playing_round_inv fuel s r s1 :
  GameLearning.playing_round human_game fuel s = (Ret r, s1) ->
  exists ag ag' r' consumed junk ans rest b,
    agent s = Some ag /\
    human_game ag (rng s) (stdin s) = GameOver ag' r' consumed /\
    drop consumed (stdin s) = junk ++ ans :: rest /\
    Forall (fun l => answer l = None) junk /\
    answer ans = Some b /\
    r = (if b then None else Some tt) /\
    s1 = after_round s ag' r' junk rest b.
Proof.
  intros H. pose proof H as H0.
  unfold GameLearning.playing_round, GameLearning.start_human_game in H0.
  unfold bind at 1 2 in H0. unfold self_agent at 1, bind at 1, get at 1 in H0.
  destruct (agent s) as [ag|] eqn:Hag; [|discriminate].
  unfold ret at 1 in H0. unfold bind at 1, modify at 1 in H0.
  unfold bind at 1, get at 1 in H0. unfold bind at 1, get at 1 in H0.
  cbn [rng stdin log add_trace] in H0.
  destruct (human_game ag (rng s) (stdin s)) as [ag' r' consumed|e] eqn:Hg; [|discriminate].
  unfold bind at 1, modify at 1 in H0. unfold bind at 1, modify at 1 in H0.
  unfold modify at 1 in H0.
  unfold bind at 1, GameLearning.count_game, modify at 1 in H0.
  apply bind_Ret_inv in H0 as (b & s2 & Hpa & _).
  apply play_again_inv in Hpa as (junk & ans & rest & Hs & Hj & Ha & Hlen).
  cbn [stdin set_games_played set_agent set_rng set_stdin] in Hs.
  rewrite (playing_round_runs fuel s ag ag' r' consumed junk ans rest b) in H by assumption.
  injection H as <- <-. eauto 15.
Qed.

Lemma runs_session fuel_in fuel_out : forall s s',
  while_true fuel_out (GameLearning.playing_round human_game fuel_in) s = (Ret tt, s') ->
  exists n, session human_game s n s'.
Proof.
  induction fuel_out as [|fuel_out IH]; intros s s' H; [discriminate|].
  cbn [while_true] in H.
  apply bind_Ret_inv in H as (r & s1 & Hr & H).
  apply playing_round_inv in Hr
    as (ag & ag' & r' & consumed & junk & ans & rest & b & Hag & Hg & Hd & Hj & Ha & -> & ->).
  apply no_answers_read_all in Hj.
  destruct b.
  - apply answer_yes_answers in Ha.
    apply IH in H as [n Hn]. exists (S n). eapply session_again; eauto.
  - apply answer_no_answers in Ha.
    injection H as <-. exists 1%nat. eapply session_stop; eauto.
Qed.

(** C7: [beginPlaying] returns exactly after a session of interactive
    play: whole games one after the other, where after each game the
    lines that are none of y, yes, n and no, in any mix of upper and
    lower case, are asked about again, a y or yes starts another game
    and an n or no ends the loop.  The count of games has then grown by
    exactly the number of games of the session, one for each game in
    the trace. *)
Theorem beginPlaying_session fuel s s' :
  (length (stdin s) < fuel)%nat ->
  (GameLearning.beginPlaying human_game fuel s = (Ret tt, s') <->
   exists n, session human_game (log (EPrint GameLearning.welcome) s) n s') /\
  (forall n,
      session human_game (log (EPrint GameLearning.welcome) s) n s' ->
      games_played s' = games_played s + Z.of_nat n /\
      exists added,
        trace s' = trace s ++ [EPrint GameLearning.welcome] ++ added /\ games_in added = n).
Proof.
  intros Hfuel. split; [split|].
  - unfold GameLearning.beginPlaying. unfold bind at 1, print, modify at 1.
    apply runs_session.
  - intros [n Hs].
    destruct (session_counts _ _ _ Hs) as (_ & _ & Hlen).
    unfold GameLearning.beginPlaying. unfold bind at 1, print, modify at 1.
    apply (session_runs _ _ _ Hs); cbn [log add_trace stdin] in *; lia.
  - intros n Hs.
    destruct (session_counts _ _ _ Hs) as (Hgp & (added & Htr & Hgames) & _).
    split; [exact Hgp|].
    exists added. split; [|exact Hgames].
    rewrite Htr. cbn [log add_trace trace]. now rewrite <- app_assoc.
Qed.

(** ** One path for the agent file *)

Lemma keeps_beginPlaying fuel : keeps (GameLearning.beginPlaying human_game fuel).
Proof.
  unfold GameLearning.beginPlaying, GameLearning.playing_round,
    GameLearning.start_human_game, GameLearning.count_game.
  repeat first [apply keeps_self_agent | apply keeps_play_again | keeps_step].
Qed.

Lemma keeps_teaching_round : keeps (GameLearning.teaching_round teacher_game).
Proof.
  unfold GameLearning.teaching_round, GameLearning.start_teacher_game,
    GameLearning.count_game.
  repeat first [apply keeps_self_agent | keeps_step].
Qed.

Lemma keeps_beginTeaching fuel episodes :
  keeps (GameLearning.beginTeaching teacher_game fuel episodes).
Proof.
  unfold GameLearning.beginTeaching, save_agent.
  repeat first [apply keeps_self_agent | apply keeps_plot_agent_reward
               | apply keeps_teaching_round | keeps_step].
Qed.

(** The constructor starts by assigning its first two attributes, so
    it runs the same from a state where they are assigned already. *)
Lemma init_restart fuel args al ga ep s :
  GameLearning.__init__ fuel args al ga ep s =
  GameLearning.__init__ fuel args al ga ep
    (set_agent_path trained_agent (set_games_played 0 s)).
Proof. reflexivity. Qed.

Lemma script_after_init fuel args (k : M unit) s :
  let s' := snd ((do GameLearning.__init__ fuel args None None None; k) s) in
  keeps k ->
  traced s s' /\
  (fst ((do GameLearning.__init__ fuel args None None None; k) s) = Ret tt ->
   agent_path s' = trained_agent).
Proof.
  intros s' Hk.
  assert (keeps (do GameLearning.__init__ fuel args None None None; k)) as H.
  { apply keeps_bind; [apply keeps_init|intros _; exact Hk]. }
  specialize (H (set_agent_path trained_agent (set_games_played 0 s)) eq_refl).
  unfold bind in H. rewrite <- init_restart in H. fold s' in H.
  destruct H as [Hp Ht]. split; [exact Ht|auto].
Qed.

Lemma init_path fuel args al ga ep s s1 :
  GameLearning.__init__ fuel args al ga ep s = (Ret tt, s1) ->
  agent_path s1 = trained_agent.
Proof.
  intros H. rewrite init_restart in H.
  pose proof (keeps_init fuel args al ga ep
                (set_agent_path trained_agent (set_games_played 0 s)) eq_refl) as [Hp _].
  now rewrite H in Hp.
Qed.

Lemma beginTeaching_saves fuel episodes s s' :
  agent_path s = trained_agent ->
  GameLearning.beginTeaching teacher_game fuel episodes s = (Ret tt, s') ->
  exists ag,
    agent s' = Some ag /\
    fs s' !! trained_agent = Some (Pickled ag) /\
    last (trace s') = Some (ESave trained_agent).
Proof.
  intros Hp H. unfold GameLearning.beginTeaching in H.
  apply bind_Ret_inv in H as ([] & s1 & Hloop & H).
  pose proof (keeps_while (fun s => games_played s <? episodes) _ fuel
                keeps_teaching_round s Hp) as [Hp1 _].
  rewrite Hloop in Hp1. cbn [snd] in Hp1.
  unfold bind at 1, self_agent at 1, bind at 1, get at 1 in H.
  destruct (agent s1) as [ag|] eqn:Hag; [|discriminate].
  cbv [bind ret plot_agent_reward modify get save_agent] in H.
  injection H as <-. exists ag.
  cbn [agent fs trace log add_trace set_fs agent_path]. rewrite Hp1.
  split; [exact Hag|]. split; [apply lookup_insert_eq|].
  apply last_snoc.
Qed.

(** A run of training that finds no agent file in its way goes through
    construction and all the rounds, and returns. *)
Lemma training_run_returns fuel args s episodes :
  teacher_episodes args = Some episodes ->
  load args = false ->
  plot args = false ->
  fs s !! trained_agent = None ->
  (Z.to_nat episodes <= fuel)%nat ->
  fst (script fuel args s) = Ret tt.
Proof.
  intros Ht Hl Hp Hf Hfuel.
  rewrite main_consistent by (rewrite Hp; discriminate).
  unfold bind at 1. rewrite init_no_file by assumption. rewrite Ht.
  erewrite beginTeaching_runs; [reflexivity|reflexivity|].
  cbn [games_played]. now rewrite Z.sub_0_r.
Qed.

(** The three facts about the path of the agent file, for every run. *)
Lemma script_paths fuel args s :
  (exists added,
      trace (snd (script fuel args s)) = trace s ++ added /\
      Forall at_fixed_path added)
  /\ (load args = true ->
      (plot args = true -> teacher_episodes args = None) ->
      exists rest,
        trace (snd (script fuel args s)) = trace s ++ EOpen trained_agent :: rest)
  /\ (forall episodes,
      teacher_episodes args = Some episodes ->
      fst (script fuel args s) = Ret tt ->
      exists ag,
        agent (snd (script fuel args s)) = Some ag /\
        fs (snd (script fuel args s)) !! trained_agent = Some (Pickled ag) /\
        last (trace (snd (script fuel args s))) = Some (ESave trained_agent)).
Proof.
  assert (keeps (match teacher_episodes args with
                 | Some episodes => GameLearning.beginTeaching teacher_game fuel episodes
                 | None => GameLearning.beginPlaying human_game fuel
                 end)) as Hk.
  { destruct (teacher_episodes args);
      [apply keeps_beginTeaching|apply keeps_beginPlaying]. }
  destruct (decide (plot args = true -> load args = true /\ teacher_episodes args = None))
    as [Hc|Hc].
  - rewrite (main_consistent fuel args s Hc).
    split; [|split].
    + apply (script_after_init fuel args _ s Hk).
    + intros Hl _. unfold bind at 1. rewrite init_load by assumption.
      cbv zeta.
      destruct (fs s !! trained_agent) as [[ag|]|]; cbn [snd add_trace trace].
      * destruct (plot args); cbn [snd add_trace set_agent trace].
        -- rewrite <- app_assoc. eauto.
        -- match goal with |- context [?k ?st] =>
             match type of st with State =>
               destruct (Hk st eq_refl) as [_ (added & -> & _)] end end.
           cbn [trace set_agent]. rewrite <- app_assoc. eauto.
      * eauto.
      * rewrite <- app_assoc. eauto.
    + intros episodes He Hr. rewrite He in *.
      destruct ((do GameLearning.__init__ fuel args None None None;
                 GameLearning.beginTeaching teacher_game fuel episodes) s)
        as [o s'] eqn:Hrun.
      cbn [fst snd] in *. subst o.
      apply bind_Ret_inv in Hrun as ([] & s1 & Hinit & Hteach).
      apply init_path in Hinit.
      now apply (beginTeaching_saves fuel episodes s1 s').
  - assert (plot args = true /\ (load args = false \/ teacher_episodes args <> None))
      as [Hp Hbad].
    { destruct (plot args); [|exfalso; apply Hc; discriminate].
      split; [reflexivity|].
      destruct (load args); [|now left]. right. intros Hn. apply Hc. auto. }
    rewrite (main_conflict fuel args s Hp Hbad). cbn [fst snd].
    split; [apply traced_refl|]. split.
    + intros Hl Hpt. destruct Hbad as [Hb|Hb]; [congruence|]. exfalso. auto.
    + discriminate.
Qed.

(** C9: whatever the flags and the state the script starts in, every
    event of the run that goes to the file system names the path
    ./trained_agent.pkl; with the load flag (and flags that pass the
    assertions) the run begins by opening that path; a run with teacher
    episodes that returns has saved the agent there as its last step, so
    that the file at that path holds the trained agent; and such a run
    does return when no agent file is in the way of a fresh agent. *)
Theorem one_agent_path fuel args s :
  (exists added,
      trace (snd (script fuel args s)) = trace s ++ added /\
      Forall (fun e => forall p, path_of e = Some p -> p = "./trained_agent.pkl") added)
  /\ (load args = true ->
      (plot args = true -> teacher_episodes args = None) ->
      exists rest,
        trace (snd (script fuel args s))
        = trace s ++ EOpen "./trained_agent.pkl" :: rest)
  /\ (forall episodes,
      teacher_episodes args = Some episodes ->
      fst (script fuel args s) = Ret tt ->
      exists ag,
        agent (snd (script fuel args s)) = Some ag /\
        fs (snd (script fuel args s)) !! "./trained_agent.pkl" = Some (Pickled ag) /\
        last (trace (snd (script fuel args s))) = Some (ESave "./trained_agent.pkl"))
  /\ (forall episodes,
      teacher_episodes args = Some episodes ->
      load args = false ->
      plot args = false ->
      fs s !! "./trained_agent.pkl" = None ->
      (Z.to_nat episodes <= fuel)%nat ->
      fst (script fuel args s) = Ret tt).
Proof.
  destruct (script_paths fuel args s) as (Hpaths & Hload & Hsave).
  split; [exact Hpaths|]. split; [exact Hload|]. split; [exact Hsave|].
  intros episodes. apply training_run_returns.
Qed.


(** ** The script ends *)

Lemma fine_start_human_game n : fine n (GameLearning.start_human_game human_game).
Proof.
  intros s Hs. unfold GameLearning.start_human_game.
  cbv [bind self_agent get ret raise modify log add_trace set_stdin set_rng set_agent
       games_played agent_path agent fs stdin rng trace].
  destruct s as [g p [ag|] f lines r t]; cbn [fst snd];
    [|split; [discriminate|reflexivity]].
  destruct (human_game ag r lines) as [ag' r' consumed|e]; cbn [fst snd stdin];
    (split; [discriminate|]); rewrite ?length_drop; lia.
Qed.

Lemma fine_playing_round fuel :
  fine fuel (GameLearning.playing_round human_game fuel)
  /\ eats fuel (GameLearning.playing_round human_game fuel).
Proof.
  destruct (fine_play_again fuel) as [Hf He].
  unfold GameLearning.playing_round, GameLearning.count_game, print. split.
  - repeat first [apply fine_start_human_game | exact Hf | fine_step].
  - apply eats_bind_r; [apply fine_start_human_game|intros ?].
    apply eats_bind_r; [fine_step|intros ?].
    apply eats_bind_l; [exact He|exact Hf|intros ?].
    repeat fine_step.
Qed.

Lemma fine_beginPlaying fuel : fine fuel (GameLearning.beginPlaying human_game fuel).
Proof.
  unfold GameLearning.beginPlaying, print.
  apply fine_bind; [fine_step|intros ?].
  apply fine_while_true; [apply fine_playing_round|apply fine_playing_round|reflexivity].
Qed.

Lemma teaching_round_no_agent s :
  agent s = None ->
  fst (GameLearning.teaching_round teacher_game s) = Raise AttributeError.
Proof.
  intros Ha. unfold GameLearning.teaching_round, GameLearning.start_teacher_game.
  unfold bind at 1 2. unfold self_agent at 1, bind at 1, get at 1. now rewrite Ha.
Qed.

Lemma beginTeaching_fuel fuel episodes s :
  (Z.to_nat (episodes - games_played s) <= fuel)%nat ->
  fst (GameLearning.beginTeaching teacher_game fuel episodes s) <> OutOfFuel.
Proof.
  intros Hfuel. destruct (agent s) as [ag|] eqn:Ha.
  - now rewrite (beginTeaching_runs fuel episodes s ag Ha Hfuel).
  - unfold GameLearning.beginTeaching. unfold bind at 1.
    destruct fuel as [|fuel]; cbn [while];
      destruct (games_played s <? episodes) eqn:Hc; try lia.
    + unfold ret at 1. unfold bind at 1, self_agent at 1, bind at 1, get at 1.
      now rewrite Ha.
    + unfold bind at 1.
      pose proof (teaching_round_no_agent s Ha) as Hr.
      destruct (GameLearning.teaching_round teacher_game s) as [o s1].
      cbn [fst] in Hr. subst o. discriminate.
    + unfold ret at 1. unfold bind at 1, self_agent at 1, bind at 1, get at 1.
      now rewrite Ha.
Qed.

(** The constructor leaves the count of games at 0. *)
Lemma init_games_played fuel args al ga ep s :
  games_played (snd (GameLearning.__init__ fuel args al ga ep s)) = 0.
Proof.
  destruct (load args) eqn:Hl.
  - rewrite init_load by assumption. cbv zeta.
    destruct (fs s !! trained_agent) as [[ag|]|]; [destruct (plot args)| |]; reflexivity.
  - destruct (fs s !! trained_agent) as [f|] eqn:Hf.
    + rewrite init_fresh_unfold by (rewrite ?Hf; eauto).
      unfold bind at 1.
      match goal with |- context [while_true fuel ?b ?st] =>
        assert (forall n s0, games_played (snd (while_true n b s0)) = games_played s0) as Hloop
      end.
      { induction n as [|n IH]; intros s0; [reflexivity|].
        cbn [while_true]. unfold bind at 1 2, input at 1.
        destruct (stdin s0) as [|l lines]; [reflexivity|].
        destruct (says_yes l); [reflexivity|].
        destruct (says_no l); [reflexivity|].
        unfold bind at 1, print, modify at 1. unfold bind at 1, ret at 1.
        now rewrite IH. }
      match goal with |- context [while_true fuel ?b ?st] =>
        specialize (Hloop fuel st); destruct (while_true fuel b st) as [[[]| | |] s1]
      end; exact Hloop.
    + now rewrite init_no_file.
Qed.

(** X15: with more fuel than lines of input and episodes of teaching,
    the script ends by itself, whatever the flags, the files, the input
    and the games: it returns, exits, or stops on an exception.  The
    prompts cannot go round for ever, since each round takes a line. *)
Theorem script_ends fuel args s :
  (length (stdin s) + Z.to_nat (default 0%Z (teacher_episodes args)) < fuel)%nat ->
  fst (script fuel args s) <> OutOfFuel.
Proof.
  intros Hfuel. unfold main. unfold bind at 1.
  assert (forall k : M unit,
             (forall s1, (length (stdin s1) <= length (stdin s))%nat ->
                         games_played s1 = 0 -> fst (k s1) <> OutOfFuel) ->
             fst ((do GameLearning.__init__ fuel args None None None; k) s) <> OutOfFuel)
    as Hinit.
  { intros k Hk. unfold bind.
    destruct (fine_init args None None None fuel s) as [Ho Hl]; [lia|].
    pose proof (init_games_played fuel args None None None s) as Hg.
    destruct (GameLearning.__init__ fuel args None None None s) as [[[]| | |] s1];
      cbn [fst snd] in *; try discriminate; [|contradiction].
    apply Hk; assumption. }
  assert (fst ((do GameLearning.__init__ fuel args None None None;
                match teacher_episodes args with
                | Some episodes => GameLearning.beginTeaching teacher_game fuel episodes
                | None => GameLearning.beginPlaying human_game fuel
                end) s) <> OutOfFuel) as Hrun.
  { apply Hinit. intros s1 Hl Hg.
    destruct (teacher_episodes args) as [episodes|]; cbn [default from_option id] in Hfuel.
    - apply beginTeaching_fuel. rewrite Hg, Z.sub_0_r. lia.
    - apply fine_beginPlaying. lia. }
  destruct (plot args); [|exact Hrun].
  unfold bind at 1, assert.
  destruct (load args); [|discriminate].
  destruct (teacher_episodes args); [discriminate|exact Hrun].
Qed.

(** ** What a run leaves of the file system *)

Lemma quiet_beginPlaying fuel :
  stays_quiet (fun e => negb (is_open e || is_save e || is_plot e))
              (GameLearning.beginPlaying human_game fuel).
Proof.
  unfold GameLearning.beginPlaying, GameLearning.playing_round,
    GameLearning.start_human_game, GameLearning.count_game, self_agent, print.
  repeat first [apply quiet_play_again; intros ?; reflexivity | quiet_step].
Qed.

Lemma quiet_teaching_loop fuel episodes :
  stays_quiet (fun e => negb (is_open e || is_save e || is_plot e || is_input e))
              (while fuel (fun s => games_played s <? episodes)
                     (GameLearning.teaching_round teacher_game)).
Proof.
  unfold GameLearning.teaching_round, GameLearning.start_teacher_game,
    GameLearning.count_game, self_agent, print.
  repeat quiet_step.
Qed.

(** A weaker test passes the events that a stronger one passes. *)
Lemma quiet_weaken (strong weak : event -> bool) s s' :
  (forall e, strong e = true -> weak e = true) ->
  quiet strong s s' -> quiet weak s s'.
Proof.
  intros Hw [Hfs (added & Ht & Hall)]. split; [exact Hfs|].
  exists added. split; [exact Ht|]. eapply Forall_impl; [exact Hall|exact Hw].
Qed.

(** How [beginTeaching] ends: before the save, with the file system as
    it was, or by returning after the save. *)
Lemma beginTeaching_ends fuel episodes s :
  agent_path s = trained_agent ->
  let r := GameLearning.beginTeaching teacher_game fuel episodes s in
  (fst r <> Ret tt /\ quiet (fun e => negb (is_open e || is_save e || is_plot e || is_input e))
                            s (snd r))
  \/ (fst r = Ret tt /\
      exists ag played,
        agent (snd r) = Some ag /\
        fs (snd r) = <[trained_agent := Pickled ag]> (fs s) /\
        trace (snd r) = trace s ++ played
                          ++ [EPlot (cumulative_rewards (Agent.rewards ag));
                              ESave trained_agent] /\
        Forall (fun e => negb (is_open e || is_save e || is_plot e || is_input e) = true)
               played).
Proof.
  intros Hp r. subst r.
  pose proof (quiet_teaching_loop fuel episodes s) as Hq.
  pose proof (keeps_while (fun s => games_played s <? episodes) _ fuel
                keeps_teaching_round s Hp) as [Hp1 _].
  cbv beta iota delta [GameLearning.beginTeaching bind self_agent get ret
                       plot_agent_reward modify save_agent].
  destruct (while fuel (fun s0 => games_played s0 <? episodes)
                  (GameLearning.teaching_round teacher_game) s) as [[[]| | |] s1];
    cbn [fst snd] in *; try (left; split; [discriminate|exact Hq]).
  destruct (agent s1) as [ag|] eqn:Hag; cbn [fst snd];
    [|left; split; [discriminate|exact Hq]].
  right. split; [reflexivity|].
  destruct Hq as [Hfs (played & Ht & Hall)].
  exists ag, played.
  cbn [agent fs trace log add_trace set_fs agent_path].
  rewrite Hp1, Hfs, Ht, <- !app_assoc. auto.
Qed.

(** X1: the file system changes in one way only: a training run that
    returns has written the agent to ./trained_agent.pkl and nothing
    else.  Every run in play mode, and every run that ends by an exit or
    an exception, leaves the file system exactly as it found it. *)
Theorem file_system_only_saved fuel args s :
  (fst (script fuel args s) <> Ret tt \/ teacher_episodes args = None ->
   fs (snd (script fuel args s)) = fs s)
  /\ (teacher_episodes args <> None ->
      fst (script fuel args s) = Ret tt ->
      exists ag,
        agent (snd (script fuel args s)) = Some ag /\
        fs (snd (script fuel args s)) = <[trained_agent := Pickled ag]> (fs s)).
Proof.
  destruct (decide (plot args = true -> load args = true /\ teacher_episodes args = None))
    as [Hc|Hc].
  - rewrite (main_consistent fuel args s Hc).
    pose proof (quiet_init fuel args None None None s) as [Hfs _].
    match goal with |- context [bind ?m ?k s] =>
      destruct (bind_split m k s) as [([] & s1 & Hinit & ->)|[Hne ->]]
    end; [|split; [intros _; exact Hfs|intros _ Hr; destruct (Hne tt Hr)]].
    rewrite Hinit in Hfs. cbn [snd] in Hfs.
    apply init_path in Hinit.
    destruct (teacher_episodes args) as [episodes|].
    + destruct (beginTeaching_ends fuel episodes s1 Hinit) as [[Hr [Hq _]]|[Hr Hsaved]].
      * split; [intros _; congruence|intros _ Hr'; contradiction].
      * split; [intros [H|H]; [contradiction|discriminate]|].
        intros _ _. destruct Hsaved as (ag & played & Hag & Hs & _).
        exists ag. rewrite Hs, Hfs. auto.
    + pose proof (quiet_beginPlaying fuel s1) as [Hq _].
      split; [intros _; congruence|intros Hn; contradiction].
  - assert (plot args = true /\ (load args = false \/ teacher_episodes args <> None))
      as [Hp Hbad].
    { destruct (plot args); [|exfalso; apply Hc; discriminate].
      split; [reflexivity|].
      destruct (load args); [|now left]. right. intros Hn. apply Hc. auto. }
    rewrite (main_conflict fuel args s Hp Hbad). cbn [fst snd].
    split; [reflexivity|discriminate].
Qed.

(** In a run without the load flag nothing is opened: the script only
    looks whether there is an agent file. *)
Lemma fresh_run_opens_nothing fuel args s :
  load args = false ->
  exists added,
    trace (snd (script fuel args s)) = trace s ++ added /\
    Forall (fun e => is_open e = false) added.
Proof.
  intros Hl.
  assert (forall (allowed : event -> bool) s1 s2,
             (forall e, allowed e = true -> is_open e = false) ->
             quiet allowed s1 s2 ->
             exists added, trace s2 = trace s1 ++ added /\
                           Forall (fun e => is_open e = false) added) as Hweak.
  { intros allowed s1 s2 Hw [_ (added & Ht & Hall)]. exists added.
    split; [exact Ht|]. eapply Forall_impl; [exact Hall|exact Hw]. }
  destruct (plot args) eqn:Hp.
  - rewrite (main_conflict fuel args s Hp (or_introl Hl)). cbn [snd].
    exists []. split; [now rewrite app_nil_r|constructor].
  - rewrite main_consistent by (rewrite Hp; discriminate).
    pose proof (quiet_init_fresh fuel args None None None Hl s) as Hq.
    match goal with |- context [bind ?m ?k s] =>
      destruct (bind_split m k s) as [([] & s1 & Hinit & ->)|[_ ->]]
    end.
    + rewrite Hinit in Hq. cbn [snd] in Hq.
      apply (Hweak _ s s1) in Hq as (a1 & Ht1 & Ha1);
        [|intros e; destruct e; cbn; congruence].
      apply init_path in Hinit.
      assert (exists added, trace (snd (match teacher_episodes args with
                | Some episodes => GameLearning.beginTeaching teacher_game fuel episodes
                | None => GameLearning.beginPlaying human_game fuel
                end s1)) = trace s1 ++ added /\
                Forall (fun e => is_open e = false) added) as (a2 & Ht2 & Ha2).
      { destruct (teacher_episodes args) as [episodes|].
        - destruct (beginTeaching_ends fuel episodes s1 Hinit)
            as [[_ Hq]|[_ (ag & played & _ & _ & Ht & Hall)]].
          + apply (Hweak _ _ _) in Hq; [exact Hq|intros e; destruct e; cbn; congruence].
          + eexists. split; [exact Ht|]. apply Forall_app. split.
            * eapply Forall_impl; [exact Hall|intros e; destruct e; cbn; congruence].
            * repeat constructor.
        - apply (Hweak _ _ _ ) with (2 := quiet_beginPlaying fuel s1).
          intros e; destruct e; cbn; congruence. }
      exists (a1 ++ a2). split; [now rewrite Ht2, Ht1, app_assoc|now apply Forall_app].
    + apply (Hweak _ _ _) in Hq; [exact Hq|intros e; destruct e; cbn; congruence].
Qed.

(** ** What an old agent file holds *)

Lemma ignores_beginPlaying fuel :
  ignores_files (GameLearning.beginPlaying human_game fuel).
Proof.
  unfold GameLearning.beginPlaying, GameLearning.playing_round,
    GameLearning.start_human_game, GameLearning.play_again, GameLearning.count_game,
    self_agent, print.
  repeat ignores_step.
Qed.

Lemma ignores_teaching_loop fuel episodes :
  ignores_files (while fuel (fun s => games_played s <? episodes)
                       (GameLearning.teaching_round teacher_game)).
Proof.
  unfold GameLearning.teaching_round, GameLearning.start_teacher_game,
    GameLearning.count_game, self_agent, print.
  repeat ignores_step.
Qed.

(** [beginTeaching] on another file system: the same games and the same
    end, and the same agent saved to the same path if it gets there. *)
Lemma beginTeaching_other_files fuel episodes s files :
  let r := GameLearning.beginTeaching teacher_game fuel episodes s in
  exists files',
    GameLearning.beginTeaching teacher_game fuel episodes (set_fs files s) =
    (fst r, set_fs files' (snd r)) /\
    ((fs (snd r) = fs s /\ files' = files) \/
     exists ag, fs (snd r) = <[agent_path (snd r) := Pickled ag]> (fs s) /\
                files' = <[agent_path (snd r) := Pickled ag]> files).
Proof.
  intros r. subst r.
  pose proof (ignores_files_fs _ s (ignores_teaching_loop fuel episodes)) as Hfs.
  cbv beta iota delta [GameLearning.beginTeaching bind self_agent get ret
                       plot_agent_reward modify save_agent].
  rewrite (ignores_teaching_loop fuel episodes s files).
  destruct (while fuel (fun s0 => games_played s0 <? episodes)
                  (GameLearning.teaching_round teacher_game) s) as [[[]| | |] s1];
    cbn [fst snd] in *; try (exists files; split; [reflexivity|left; auto]).
  cbn [agent set_fs].
  destruct (agent s1) as [ag|]; cbn [fst snd];
    [|exists files; split; [reflexivity|left; auto]].
  exists (<[agent_path s1 := Pickled ag]> files). split; [reflexivity|].
  right. exists ag. cbn [fs agent_path set_fs log add_trace]. rewrite Hfs. split; reflexivity.
Qed.

(** The script without the load flag on another file system that has a
    file at the fixed path exactly if this one has. *)
Lemma script_other_files fuel args s files :
  load args = false ->
  (is_Some (files !! trained_agent) <-> is_Some (fs s !! trained_agent)) ->
  let run := script fuel args s in
  exists files',
    script fuel args (set_fs files s) = (fst run, set_fs files' (snd run)) /\
    ((fs (snd run) = fs s /\ files' = files) \/
     exists ag, fs (snd run) = <[trained_agent := Pickled ag]> (fs s) /\
                files' = <[trained_agent := Pickled ag]> files).
Proof.
  intros Hl Hsame run. subst run.
  destruct (plot args) eqn:Hp.
  { rewrite !(main_conflict fuel args _ Hp (or_introl Hl)). cbn [fst snd].
    exists files. split; [reflexivity|left; auto]. }
  rewrite !main_consistent by (rewrite Hp; discriminate).
  unfold bind. rewrite (init_other_files _ _ _ _ _ _ _ Hl Hsame).
  pose proof (quiet_init_fresh fuel args None None None Hl s) as [Hfs0 _].
  destruct (GameLearning.__init__ fuel args None None None s) as [[[]| | |] s1] eqn:Hinit;
    cbn [fst snd] in *; try (exists files; split; [reflexivity|left; auto]).
  apply init_path in Hinit.
  destruct (teacher_episodes args) as [episodes|].
  - destruct (beginTeaching_other_files fuel episodes s1 files) as (files' & Hrun & Hfs).
    destruct (keeps_beginTeaching fuel episodes s1 Hinit) as [Hpath _].
    rewrite Hpath, Hfs0 in Hfs. exists files'. split; [exact Hrun|exact Hfs].
  - rewrite (ignores_beginPlaying fuel s1 files).
    pose proof (ignores_files_fs _ s1 (ignores_beginPlaying fuel)) as Hfs.
    exists files. split; [reflexivity|]. left. split; [congruence|reflexivity].
Qed.

(** X2: without the load flag, what an old agent file holds plays no
    part in the run: the script only looks whether there is a file at
    the fixed path and never opens one.  Started on any other file
    system that has a file at the fixed path exactly if this one has,
    the run ends the same way and in the same state but for the file
    system: the same count, agent, input left, random generator and
    trace; and either both file systems are as they were, or the same
    agent was saved to the fixed path of both. *)
Theorem old_file_plays_no_part fuel args s files :
  load args = false ->
  (is_Some (files !! trained_agent) <-> is_Some (fs s !! trained_agent)) ->
  let run := script fuel args s in
  let other := script fuel args (set_fs files s) in
  fst other = fst run /\
  set_fs (fs (snd run)) (snd other) = snd run /\
  ((fs (snd run) = fs s /\ fs (snd other) = files) \/
   exists ag, fs (snd run) = <[trained_agent := Pickled ag]> (fs s) /\
              fs (snd other) = <[trained_agent := Pickled ag]> files) /\
  exists added,
    trace (snd run) = trace s ++ added /\
    Forall (fun e => is_open e = false) added.
Proof.
  intros Hl Hsame run other.
  destruct (script_other_files fuel args s files Hl Hsame) as (files' & Hrun & Hfs).
  fold run in Hrun, Hfs. subst other. rewrite Hrun. cbn [fst snd fs set_fs].
  split; [reflexivity|]. split; [now destruct (snd run)|].
  split; [|apply (fresh_run_opens_nothing fuel args s Hl)].
  destruct Hfs as [[Hfs ->]|(ag & Hfs & ->)]; [left|right; exists ag]; auto.
Qed.

(** X3: with the plot flag the script never gets to play or to teach.
    The assertions of the script are in force, as they are unless
    Python runs with -O.  Whatever the other flags, the files, the
    input and the fuel, the run ends by [sys.exit(0)] or by an
    exception, never by returning and never for want of fuel; no game
    was played, nothing was saved and no line was read, and the file
    system and the input are as they were. *)
Theorem plot_never_plays fuel args s :
  plot args = true ->
  (fst (script fuel args s) = SysExit 0 \/
   exists e, fst (script fuel args s) = Raise e) /\
  fs (snd (script fuel args s)) = fs s /\
  stdin (snd (script fuel args s)) = stdin s /\
  exists added,
    trace (snd (script fuel args s)) = trace s ++ added /\
    Forall (fun e => negb (is_game e || is_save e || is_input e) = true) added.
Proof.
  intros Hp.
  destruct (load args) eqn:Hl; [destruct (teacher_episodes args) as [n|] eqn:Ht|].
  - rewrite (main_conflict fuel args s Hp) by (right; congruence). cbn [fst snd].
    split; [right; eexists; reflexivity|]. repeat split.
    exists []. split; [now rewrite app_nil_r|constructor].
  - rewrite main_consistent by auto. unfold bind at 1 2 3 4 5.
    rewrite init_load by assumption. rewrite Hp. cbv zeta.
    destruct (fs s !! trained_agent) as [[ag|]|]; cbn [fst snd];
      (split; [first [left; reflexivity | right; eexists; reflexivity]|]);
      (repeat split);
      cbn [trace add_trace set_agent]; rewrite <- ?app_assoc;
      eexists; (split; [reflexivity|]); repeat constructor.
  - rewrite (main_conflict fuel args s Hp (or_introl Hl)). cbn [fst snd].
    split; [right; eexists; reflexivity|]. repeat split.
    exists []. split; [now rewrite app_nil_r|constructor].
Qed.

(** ** Monitoring the progress of teaching *)

(** X4: while it teaches, [beginTeaching] prints the count of games
    each time the count reaches a multiple of 1000, and prints nothing
    else: from a count of [g] up to [episodes] the lines are
    "Games played: 1000 i" for the i from g/1000 + 1 to episodes/1000,
    in order. *)
Theorem teaching_progress_lines fuel episodes s ag :
  agent s = Some ag ->
  games_played s <= episodes ->
  (Z.to_nat (episodes - games_played s) <= fuel)%nat ->
  exists s' added,
    GameLearning.beginTeaching teacher_game fuel episodes s = (Ret tt, s') /\
    trace s' = trace s ++ added /\
    progress_lines added =
    map (fun i => "Games played: " +:+ pretty (1000 * i))
        (seqZ (games_played s / 1000 + 1) (episodes / 1000 - games_played s / 1000)).
Proof.
  intros Ha Hle Hfuel. eexists _, _.
  split; [apply (beginTeaching_runs fuel episodes s ag); assumption|].
  cbn [trace]. split; [reflexivity|].
  rewrite progress_lines_app, progress_lines_teaching. cbn [progress_lines].
  rewrite app_nil_r, Z2Nat.id by lia.
  replace (games_played s + (episodes - games_played s)) with episodes by lia.
  reflexivity.
Qed.

(** ** The three ways into a training run *)

Lemma teach_after_init fuel args s episodes s1 ag0 :
  plot args = false ->
  teacher_episodes args = Some episodes ->
  GameLearning.__init__ fuel args None None None s = (Ret tt, s1) ->
  agent s1 = Some ag0 ->
  games_played s1 = 0 ->
  agent_path s1 = trained_agent ->
  (Z.to_nat episodes <= fuel)%nat ->
  let k := Z.to_nat episodes in
  let ag' := fst (train teacher_game k ag0 (rng s1)) in
  script fuel args s =
  (Ret tt,
   mkState (Z.max 0 episodes) trained_agent (Some ag')
           (<[trained_agent := Pickled ag']> (fs s1)) (stdin s1)
           (snd (train teacher_game k ag0 (rng s1)))
           (trace s1 ++ teaching_trace 0 k
              ++ [EPlot (cumulative_rewards (Agent.rewards ag')); ESave trained_agent])).
Proof.
  intros Hp Ht Hinit Hag Hg Hpath Hfuel k ag'.
  rewrite main_consistent by (rewrite Hp; discriminate).
  unfold bind at 1. rewrite Hinit, Ht.
  rewrite (beginTeaching_runs fuel episodes s1 ag0 Hag) by (rewrite Hg, Z.sub_0_r; exact Hfuel).
  rewrite Hg, Hpath, Z.sub_0_r. reflexivity.
Qed.

(** X5: a training run without the load flag and with no agent file in
    place asks nothing and reads nothing; it plays [episodes] games
    against the teacher starting from a fresh agent with the default
    hyperparameters, plots, and creates the file with the trained
    agent.  Asked for 0 episodes or fewer it plays no game and still
    writes the file, with the untrained agent. *)
Theorem fresh_training_run fuel args s episodes :
  load args = false ->
  plot args = false ->
  teacher_episodes args = Some episodes ->
  fs s !! trained_agent = None ->
  (Z.to_nat episodes <= fuel)%nat ->
  let k := Z.to_nat episodes in
  let fresh := Agent.new (Q2Qc 0.5) (Q2Qc 0.9) (Q2Qc 0.1) in
  let ag' := fst (train teacher_game k fresh (rng s)) in
  script fuel args s =
  (Ret tt,
   mkState (Z.max 0 episodes) trained_agent (Some ag')
           (<[trained_agent := Pickled ag']> (fs s)) (stdin s)
           (snd (train teacher_game k fresh (rng s)))
           (trace s ++ [EIsFile trained_agent] ++ teaching_trace 0 k
              ++ [EPlot (cumulative_rewards (Agent.rewards ag')); ESave trained_agent]))
  /\ (episodes <= 0 -> ag' = fresh).
Proof.
  intros Hl Hp Ht Hf Hfuel k fresh ag'. split.
  - erewrite teach_after_init;
      [|exact Hp|exact Ht|apply init_no_file; assumption
       |reflexivity|reflexivity|reflexivity|exact Hfuel].
    cbn [fs stdin rng trace]. rewrite <- app_assoc. reflexivity.
  - intros Hle. subst ag' k. replace (Z.to_nat episodes) with 0%nat by lia. reflexivity.
Qed.

(** X6: a run with the load flag and teacher episodes goes on training
    the agent it loaded: it asks for no confirmation and reads nothing,
    counts the games from 0 whatever the agent went through before,
    plays [episodes] more games and writes the agent back over the file
    it was loaded from. *)
Theorem continued_training_run fuel args s episodes ag :
  load args = true ->
  plot args = false ->
  teacher_episodes args = Some episodes ->
  fs s !! trained_agent = Some (Pickled ag) ->
  (Z.to_nat episodes <= fuel)%nat ->
  let k := Z.to_nat episodes in
  let ag' := fst (train teacher_game k ag (rng s)) in
  script fuel args s =
  (Ret tt,
   mkState (Z.max 0 episodes) trained_agent (Some ag')
           (<[trained_agent := Pickled ag']> (fs s)) (stdin s)
           (snd (train teacher_game k ag (rng s)))
           (trace s ++ [EOpen trained_agent] ++ teaching_trace 0 k
              ++ [EPlot (cumulative_rewards (Agent.rewards ag')); ESave trained_agent])).
Proof.
  intros Hl Hp Ht Hf Hfuel k ag'.
  erewrite teach_after_init;
    [|exact Hp|exact Ht|rewrite init_load by assumption; rewrite Hf, Hp; reflexivity
     |reflexivity|reflexivity|reflexivity|exact Hfuel].
  cbn [fs stdin rng trace set_agent]. rewrite <- app_assoc. reflexivity.
Qed.

(** X7: a training run without the load flag that finds an agent file
    and is told yes starts over from a fresh agent: the file is never
    opened, so that it may hold anything, and at the end it holds the
    newly trained agent in place of what was there.  The lines after the
    yes are left unread. *)
Theorem overwriting_training_run fuel args s episodes junk yes rest :
  load args = false ->
  plot args = false ->
  teacher_episodes args = Some episodes ->
  is_Some (fs s !! trained_agent) ->
  stdin s = junk ++ yes :: rest ->
  Forall (fun l => answer l = None) junk ->
  answer yes = Some true ->
  (length junk < fuel)%nat ->
  (Z.to_nat episodes <= fuel)%nat ->
  let k := Z.to_nat episodes in
  let fresh := Agent.new (Q2Qc 0.5) (Q2Qc 0.9) (Q2Qc 0.1) in
  let ag' := fst (train teacher_game k fresh (rng s)) in
  script fuel args s =
  (Ret tt,
   mkState (Z.max 0 episodes) trained_agent (Some ag')
           (<[trained_agent := Pickled ag']> (fs s)) rest
           (snd (train teacher_game k fresh (rng s)))
           (trace s ++ [EIsFile trained_agent]
              ++ reprompts GameLearning.overwrite_prompt junk
              ++ [EInput GameLearning.overwrite_prompt]
              ++ teaching_trace 0 k
              ++ [EPlot (cumulative_rewards (Agent.rewards ag')); ESave trained_agent])).
Proof.
  intros Hl Hp Ht Hf Hs Hj Hy Hlen Hfuel k fresh ag'.
  erewrite teach_after_init;
    [|exact Hp|exact Ht|apply (init_overwrite_yes _ _ _ _ _ _ junk yes rest); assumption
     |reflexivity|reflexivity|reflexivity|exact Hfuel].
  cbn [fs stdin rng trace]. rewrite <- !app_assoc. reflexivity.
Qed.

(** ** When the input ends at a prompt *)

(** X8: a run without the load flag that finds an agent file and whose
    input ends before a yes or a no (at once, when there is no input at
    all) stops on an EOFError, after asking again for each line it was
    given: no agent was made, no game played, and the file system is as
    it was. *)
Theorem overwrite_prompt_at_end_of_input fuel args s :
  load args = false ->
  plot args = false ->
  is_Some (fs s !! trained_agent) ->
  Forall (fun l => answer l = None) (stdin s) ->
  (length (stdin s) < fuel)%nat ->
  script fuel args s =
  (Raise EOFError,
   mkState 0 trained_agent (agent s) (fs s) [] (rng s)
           (trace s ++ [EIsFile trained_agent]
              ++ reprompts GameLearning.overwrite_prompt (stdin s)
              ++ [EInput GameLearning.overwrite_prompt])).
Proof.
  intros Hl Hp Hf Hj Hfuel.
  rewrite main_consistent by (rewrite Hp; discriminate).
  unfold bind at 1. rewrite (init_fresh_unfold _ _ _ _ _ _ Hl Hf).
  unfold bind at 1.
  rewrite while_true_reprompt_eof by assumption.
  unfold set_stdin, add_trace. cbn. rewrite <- ?app_assoc. reflexivity.
Qed.

(** X9: in any round of interactive play, when the game is over and the
    input ends before a yes or a no, the loop stops on an EOFError
    rather than quitting; the game that was played has been counted. *)
Theorem play_again_at_end_of_input fuel_in fuel_out s ag ag' r' consumed :
  agent s = Some ag ->
  human_game ag (rng s) (stdin s) = GameOver ag' r' consumed ->
  Forall (fun l => answer l = None) (drop consumed (stdin s)) ->
  (length (stdin s) < fuel_in)%nat ->
  (0 < fuel_out)%nat ->
  while_true fuel_out (GameLearning.playing_round human_game fuel_in) s =
  (Raise EOFError,
   mkState (games_played s + 1) (agent_path s) (Some ag') (fs s) [] r'
           (trace s
              ++ [EGame false; EPrint ("Games played: " +:+ pretty (games_played s + 1))]
              ++ reprompts GameLearning.again_prompt (drop consumed (stdin s))
              ++ [EInput GameLearning.again_prompt])).
Proof.
  intros Hag Hg Hj Hin Hout.
  destruct fuel_out as [|fuel_out]; [lia|]. cbn [while_true].
  unfold bind at 1. unfold GameLearning.playing_round, GameLearning.start_human_game.
  unfold bind at 1 2. unfold self_agent at 1, bind at 1, get at 1. rewrite Hag.
  unfold ret at 1. unfold bind at 1, modify at 1.
  unfold bind at 1, get at 1. unfold bind at 1, get at 1.
  cbn [rng stdin log add_trace]. rewrite Hg.
  unfold bind at 1, modify at 1. unfold bind at 1, modify at 1. unfold modify at 1.
  unfold bind at 1, GameLearning.count_game, modify at 1.
  unfold bind at 1, GameLearning.play_again.
  unfold bind at 1, get at 1. unfold bind at 1, print at 1, modify at 1.
  rewrite while_true_reprompt_eof;
    [|cbn [stdin set_stdin set_agent set_rng set_games_played log add_trace]; assumption
     |cbn [stdin set_stdin set_agent set_rng set_games_played log add_trace];
      rewrite length_drop; lia].
  unfold set_games_played, set_agent, set_rng, set_stdin, log, add_trace.
  cbn [games_played agent_path agent fs stdin rng trace].
  rewrite <- ?app_assoc. reflexivity.
Qed.

(** ** From one run to the next *)

(** X10: what a training run saved is what a later run loads: after any
    run with teacher episodes that returned, a run with the load and
    plot flags on a file system that holds the same agent file loads
    the agent the first run ended with and plots its reward history. *)
Theorem saved_agent_loads_back fuel args s fuel' args' s2 :
  teacher_episodes args <> None ->
  fst (script fuel args s) = Ret tt ->
  load args' = true ->
  plot args' = true ->
  teacher_episodes args' = None ->
  fs s2 !! trained_agent = fs (snd (script fuel args s)) !! trained_agent ->
  exists ag,
    agent (snd (script fuel args s)) = Some ag /\
    script fuel' args' s2 =
    (SysExit 0,
     mkState 0 trained_agent (Some ag) (fs s2) (stdin s2) (rng s2)
             (trace s2 ++ [EOpen trained_agent;
                           EPlot (cumulative_rewards (Agent.rewards ag))])).
Proof.
  intros Ht Hr Hl Hp Ht' Hfs.
  destruct (teacher_episodes args) as [episodes|] eqn:He; [|contradiction].
  destruct (script_paths fuel args s) as (_ & _ & Hsave).
  destruct (Hsave episodes He Hr) as (ag & Hag & Hfile & _).
  exists ag. split; [exact Hag|].
  rewrite main_consistent by auto. unfold bind at 1.
  rewrite (init_load_and_plot _ _ _ _ _ _ ag); auto. congruence.
Qed.

(** ** The constructor *)

(** X11: the constructor asks its question exactly when the load flag
    is off and there is an agent file: then the first thing after
    looking for the file is the prompt; with the load flag, or with no
    file, it shows no prompt and leaves the input and the random
    generator as they were. *)
Theorem overwrite_question_asked fuel args al ga ep s :
  (load args = true \/ fs s !! trained_agent = None ->
   stdin (snd (GameLearning.__init__ fuel args al ga ep s)) = stdin s /\
   exists added,
     trace (snd (GameLearning.__init__ fuel args al ga ep s)) = trace s ++ added /\
     Forall (fun e => is_input e = false) added)
  /\ (load args = false -> is_Some (fs s !! trained_agent) -> (0 < fuel)%nat ->
      exists rest,
        trace (snd (GameLearning.__init__ fuel args al ga ep s))
        = trace s ++ EIsFile trained_agent
                  :: EInput GameLearning.overwrite_prompt :: rest).
Proof.
  split.
  - intros H. destruct (load args) eqn:Hl.
    + rewrite init_load by assumption. cbv zeta.
      destruct (fs s !! trained_agent) as [[ag|]|]; [destruct (plot args)| |];
        cbn [snd stdin trace add_trace set_agent]; rewrite <- ?app_assoc;
        (split; [reflexivity|]); eexists; (split; [reflexivity|]); repeat constructor.
    + destruct H as [H|H]; [discriminate|].
      rewrite init_no_file by assumption. cbn [snd stdin trace].
      split; [reflexivity|]. eexists. split; [reflexivity|]. repeat constructor.
  - intros Hl Hf Hfuel. rewrite (init_fresh_unfold _ _ _ _ _ _ Hl Hf).
    match goal with |- context [bind (while_true fuel ?body) ?k ?st] =>
      destruct (while_true_prompts_first GameLearning.overwrite_prompt
                  (ret (Some tt)) (do print "OK. Quitting."; sys_exit 0) fuel st)
        as (rest & Hfirst);
        [apply quiet_ret|unfold print; repeat quiet_step|exact Hfuel|];
      destruct (bind_split (while_true fuel body) k st) as [([] & s1 & Hloop & ->)|[_ ->]]
    end.
    + rewrite Hloop in Hfirst. cbn [snd trace] in Hfirst.
      cbn [snd modify set_agent trace]. rewrite Hfirst, <- app_assoc. eauto.
    + rewrite Hfirst. cbn [trace]. rewrite <- app_assoc. eauto.
Qed.

(** X12: however the constructor ends, by returning, by an exit or on
    an exception, it has set the count of games to 0 and the agent path
    to ./trained_agent.pkl, has left the file system as it was, and has
    played no game and saved nothing. *)
Theorem constructor_leaves fuel args al ga ep s :
  games_played (snd (GameLearning.__init__ fuel args al ga ep s)) = 0 /\
  agent_path (snd (GameLearning.__init__ fuel args al ga ep s)) = "./trained_agent.pkl" /\
  fs (snd (GameLearning.__init__ fuel args al ga ep s)) = fs s /\
  exists added,
    trace (snd (GameLearning.__init__ fuel args al ga ep s)) = trace s ++ added /\
    Forall (fun e => is_game e = false /\ is_save e = false) added.
Proof.
  split; [apply init_games_played|]. split.
  - rewrite init_restart.
    now destruct (keeps_init fuel args al ga ep
                    (set_agent_path trained_agent (set_games_played 0 s)) eq_refl).
  - destruct (quiet_init fuel args al ga ep s) as [Hfs (added & Ht & Hall)].
    split; [exact Hfs|]. exists added. split; [exact Ht|].
    eapply Forall_impl; [exact Hall|].
    intros e He. cbv beta in He. destruct (is_game e), (is_save e); auto; discriminate.
Qed.

End MainProperties.

(** ** The properties at work on the small instance *)

Lemma load_failure_witness :
  Demo.script 1 (mkArgs true None false) (start ∅ [] 0) =
  (SysExit 0,
   mkState 0 trained_agent None ∅ [] 0
           [EOpen trained_agent; EPrint "The agent file does not exist. Quitting."]).
Proof.
  apply (load_failure Demo.teacher_game Demo.human_game 1
           (mkArgs true None false) (start ∅ [] 0)).
  - reflexivity.
  - intros _. reflexivity.
  - reflexivity.
Defined.

(** C1 as stated fails: with the load flag and a file at the fixed path
    that is no pickle, the run ends on the UnpicklingError, not on an
    exit, and nothing was printed. *)
Lemma corrupt_file_crashes :
  let run := Demo.script 1 (mkArgs true None false)
                         (start {[trained_agent := Corrupt]} [] 0) in
  fst run = Raise UnpicklingError /\
  (forall code, fst run <> SysExit code) /\
  trace (snd run) = [EOpen trained_agent].
Proof.
  vm_compute. split; [reflexivity|]. split; [discriminate|reflexivity].
Qed.

Lemma beginTeaching_plays_all_witness :
  exists s' ag' played,
    GameLearning.beginTeaching Demo.teacher_game 3 3
      (mkState 0 trained_agent (Some Demo.fresh) ∅ [] 0 []) = (Ret tt, s') /\
    (0 <= 3 -> games_played s' = 3) /\
    games_played s' = 3 /\
    games_in played = 3%nat /\
    Forall game_or_print played /\
    trace s' = [] ++ played
                 ++ [EPlot (cumulative_rewards (Agent.rewards ag'));
                     ESave trained_agent] /\
    agent s' = Some ag' /\
    ag' = fst (train Demo.teacher_game 3 Demo.fresh 0) /\
    fs s' = <[trained_agent := Pickled ag']> ∅ /\
    stdin s' = [].
Proof.
  apply (beginTeaching_plays_all Demo.teacher_game 3 3
           (mkState 0 trained_agent (Some Demo.fresh) ∅ [] 0 []) Demo.fresh).
  - reflexivity.
  - simpl. lia.
Defined.

Lemma conflicting_flags_fail_fast_witness :
  Demo.script 0 (mkArgs false None true) (start ∅ [] 0) =
  (Raise (AssertionError "Must load an agent to plot reward."), start ∅ [] 0).
Proof.
  apply (conflicting_flags_fail_fast Demo.teacher_game Demo.human_game 0
           (mkArgs false None true) (start ∅ [] 0)).
  - reflexivity.
  - left. reflexivity.
Defined.

Lemma load_and_plot_witness :
  Demo.script 0 (mkArgs true None true)
              (start {[trained_agent := Pickled Demo.trained]} ["4"] 0) =
  (SysExit 0,
   mkState 0 trained_agent (Some Demo.trained)
           {[trained_agent := Pickled Demo.trained]} ["4"] 0
           [EOpen trained_agent; EPlot [1; 0; 1]]).
Proof.
  exact (proj2 (load_and_plot Demo.teacher_game Demo.human_game 0 (mkArgs true None true)
                  (start {[trained_agent := Pickled Demo.trained]} ["4"] 0) Demo.trained
                  eq_refl eq_refl (lookup_singleton_eq _ _))
               eq_refl).
Defined.

Lemma plot_prefix_sums_witness :
  exists h' series,
    Store.plot_agent_reward Z.add 0 4 7 {[7%nat := [1; -1; 1]]} = Some (h', series) /\
    series = [1; 0; 1] /\
    length series = 3%nat /\
    (forall i, (i < 3)%nat -> series !! i = Some (sum_first Z.add 0 (S i) [1; -1; 1])) /\
    h' !! 7%nat = Some [1; -1; 1] /\
    (forall p, is_Some (({[7%nat := [1; -1; 1]]} : gmap nat (list Z)) !! p) ->
               h' !! p = ({[7%nat := [1; -1; 1]]} : gmap nat (list Z)) !! p).
Proof.
  apply (plot_prefix_sums Z.add 0 4 7 [1; -1; 1] {[7%nat := [1; -1; 1]]}).
  - apply lookup_singleton_eq.
  - simpl. lia.
Defined.

Lemma updates_no_learning_witness :
  Agent.value
    (Agent.Q (Agent.episodes Demo.frozen
                [Agent.Update
                   (Agent.mkTransition "XO_______" 4 0%Qc "XO__X____" [2; 3]%nat false);
                 Agent.Update
                   (Agent.mkTransition "XO__X____" 2 (-1)%Qc "XOX_X___O" [] true);
                 Agent.Record (-1)]))
    "XO_______" 4
  = Q2Qc 0.25.
Proof.
  rewrite (updates_no_learning Demo.frozen _ eq_refl). reflexivity.
Defined.

Lemma beginPlaying_session_witness :
  let s := mkState 0 trained_agent (Some Demo.fresh) ∅
                   ["4"; "maybe"; "yes"; "5"; "no"; "left"] 0 [] in
  let s1 := after_round (log (EPrint GameLearning.welcome) s) Demo.fresh 0
                        ["maybe"] ["5"; "no"; "left"] true in
  let s' := after_round s1 Demo.fresh 0 [] ["left"] false in
  GameLearning.beginPlaying Demo.human_game 7 s = (Ret tt, s') /\
  games_played s' = 2.
Proof.
  intros s s1 s'.
  assert (session Demo.human_game (log (EPrint GameLearning.welcome) s) 2 s') as Hs.
  { apply (session_again Demo.human_game (log (EPrint GameLearning.welcome) s)
             Demo.fresh Demo.fresh 0 1 ["maybe"] "yes" ["5"; "no"; "left"] 1 s').
    - reflexivity.
    - reflexivity.
    - reflexivity.
    - constructor; [|constructor]. split; simpl; intuition discriminate.
    - simpl. auto.
    - apply (session_stop Demo.human_game s1 Demo.fresh Demo.fresh 0 1 [] "no" ["left"]).
      + reflexivity.
      + reflexivity.
      + reflexivity.
      + constructor.
      + simpl. auto. }
  assert (length (stdin s) < 7)%nat as Hfuel by (simpl; lia).
  destruct (beginPlaying_session Demo.human_game 7 s s' Hfuel) as [Hrun Hcount].
  split.
  - apply Hrun. exists 2%nat. exact Hs.
  - destruct (Hcount 2%nat Hs) as [Hg _]. exact Hg.
Defined.

(** C7 as stated fails: the prompt after a game takes YES and No, which
    are none of y, yes, n and no: on YES another game is played, on No
    the session ends, and the prompt is not shown again for either. *)
Lemma capitals_answer_play_again :
  let s := mkState 0 trained_agent (Some Demo.fresh) ∅ ["4"; "YES"; "5"; "No"] 0 [] in
  let run := GameLearning.beginPlaying Demo.human_game 5 s in
  ~ In "YES" ["y"; "yes"; "n"; "no"] /\
  ~ In "No" ["y"; "yes"; "n"; "no"] /\
  fst run = Ret tt /\
  games_played (snd run) = 2 /\
  trace (snd run) =
  [EPrint GameLearning.welcome;
   EGame false; EPrint "Games played: 1"; EInput GameLearning.again_prompt;
   EGame false; EPrint "Games played: 2"; EInput GameLearning.again_prompt;
   EPrint "OK. Quitting."].
Proof.
  split; [simpl; intuition discriminate|].
  split; [simpl; intuition discriminate|].
  vm_compute. repeat split.
Qed.

Lemma default_hyperparameters_witness :
  exists ag,
    Some Demo.fresh = Some ag /\
    ag = Agent.new (Q2Qc 0.5) (Q2Qc 0.9) (Q2Qc 0.1) /\
    (0 < Agent.alpha ag /\ Agent.alpha ag <= 1)%Qc /\
    (0 <= Agent.gamma ag /\ Agent.gamma ag <= 1)%Qc /\
    (0 <= Agent.epsilon ag /\ Agent.epsilon ag <= 1)%Qc.
Proof.
  destruct (default_hyperparameters 0 (mkArgs false None false) (start ∅ [] 0) eq_refl)
    as [_ H].
  apply (H (mkState 0 trained_agent (Some Demo.fresh) ∅ [] 0 [EIsFile trained_agent])).
  reflexivity.
Defined.

Lemma overwrite_confirmation_witness :
  let files := {[trained_agent := Pickled Demo.trained]} : gmap string file in
  let asked := [EIsFile trained_agent;
                EInput GameLearning.overwrite_prompt; EPrint invalid_input;
                EInput GameLearning.overwrite_prompt] in
  GameLearning.__init__ 5 (mkArgs false None false) None None None
    (start files ["maybe"; "yes"; "left"] 0) =
  (Ret tt, mkState 0 trained_agent (Some Demo.fresh) files ["left"] 0 asked) /\
  GameLearning.__init__ 5 (mkArgs false None false) None None None
    (start files ["maybe"; "no"; "left"] 0) =
  (SysExit 0, mkState 0 trained_agent None files ["left"] 0
                      (asked ++ [EPrint "OK. Quitting."])).
Proof.
  intros files asked.
  assert (is_Some (files !! trained_agent)) as Hf.
  { exists (Pickled Demo.trained). apply lookup_singleton_eq. }
  assert (Forall no_answer ["maybe"]) as Hj.
  { constructor; [|constructor]. split; simpl; intuition discriminate. }
  split.
  - destruct (overwrite_confirmation 5 (mkArgs false None false) None None None
                (start files ["maybe"; "yes"; "left"] 0) eq_refl Hf) as [Hrun _].
    destruct (Hrun ["maybe"] "yes" ["left"] eq_refl Hj) as [Hyes _]; [simpl; lia|].
    apply Hyes. simpl. auto.
  - destruct (overwrite_confirmation 5 (mkArgs false None false) None None None
                (start files ["maybe"; "no"; "left"] 0) eq_refl Hf) as [Hrun _].
    destruct (Hrun ["maybe"] "no" ["left"] eq_refl Hj) as [_ Hno]; [simpl; lia|].
    apply Hno. simpl. auto.
Defined.

(** C10 as stated fails: the overwrite prompt takes YES and NO, which
    are none of y, yes, n and no: on YES the constructor goes on to the
    fresh Qlearner without asking again, on NO it exits. *)
Lemma capitals_answer_overwrite :
  let files := {[trained_agent := Pickled Demo.trained]} : gmap string file in
  ~ In "YES" ["y"; "yes"; "n"; "no"] /\
  ~ In "NO" ["y"; "yes"; "n"; "no"] /\
  GameLearning.__init__ 5 (mkArgs false None false) None None None
    (start files ["YES"] 0) =
  (Ret tt, mkState 0 trained_agent (Some Demo.fresh) files [] 0
                   [EIsFile trained_agent; EInput GameLearning.overwrite_prompt]) /\
  GameLearning.__init__ 5 (mkArgs false None false) None None None
    (start files ["NO"] 0) =
  (SysExit 0, mkState 0 trained_agent None files [] 0
                      [EIsFile trained_agent; EInput GameLearning.overwrite_prompt;
                       EPrint "OK. Quitting."]).
Proof.
  split; [simpl; intuition discriminate|].
  split; [simpl; intuition discriminate|].
  split; vm_compute; reflexivity.
Qed.

(** ** The further properties at work on the small instance *)

Lemma old_file_plays_no_part_witness :
  let s := start {[trained_agent := Corrupt]} ["y"] 0 in
  let files := {[trained_agent := Pickled Demo.trained]} : gmap string file in
  let run := Demo.script 5 (mkArgs false (Some 2) false) s in
  let other := Demo.script 5 (mkArgs false (Some 2) false) (set_fs files s) in
  fst other = fst run /\
  set_fs (fs (snd run)) (snd other) = snd run /\
  ((fs (snd run) = fs s /\ fs (snd other) = files) \/
   exists ag, fs (snd run) = <[trained_agent := Pickled ag]> (fs s) /\
              fs (snd other) = <[trained_agent := Pickled ag]> files) /\
  exists added,
    trace (snd run) = trace s ++ added /\
    Forall (fun e => is_open e = false) added.
Proof.
  apply (old_file_plays_no_part Demo.teacher_game Demo.human_game 5
           (mkArgs false (Some 2) false) (start {[trained_agent := Corrupt]} ["y"] 0)
           {[trained_agent := Pickled Demo.trained]}).
  - reflexivity.
  - split; intros _.
    + exists Corrupt. apply lookup_singleton_eq.
    + exists (Pickled Demo.trained). apply lookup_singleton_eq.
Defined.

Lemma plot_never_plays_witness :
  let run := Demo.script 3 (mkArgs true None true)
                         (start {[trained_agent := Pickled Demo.trained]} ["y"] 0) in
  (fst run = SysExit 0 \/ exists e, fst run = Raise e) /\
  fs (snd run) = {[trained_agent := Pickled Demo.trained]} /\
  stdin (snd run) = ["y"].
Proof.
  intros run.
  destruct (plot_never_plays Demo.teacher_game Demo.human_game 3 (mkArgs true None true)
              (start {[trained_agent := Pickled Demo.trained]} ["y"] 0) eq_refl)
    as (Hend & Hfs & Hin & _).
  split; [exact Hend|]. split; [exact Hfs|exact Hin].
Defined.

Lemma teaching_progress_lines_witness :
  exists s' added,
    GameLearning.beginTeaching Demo.teacher_game 2500 2500
      (mkState 0 trained_agent (Some Demo.fresh) ∅ [] 0 []) = (Ret tt, s') /\
    trace s' = [] ++ added /\
    progress_lines added = ["Games played: 1000"; "Games played: 2000"].
Proof.
  destruct (teaching_progress_lines Demo.teacher_game 2500 2500
              (mkState 0 trained_agent (Some Demo.fresh) ∅ [] 0 []) Demo.fresh)
    as (s' & added & Hrun & Htrace & Hlines).
  - reflexivity.
  - simpl. lia.
  - simpl. lia.
  - exists s', added. split; [exact Hrun|]. split; [exact Htrace|].
    rewrite Hlines. vm_compute. reflexivity.
Defined.

Lemma fresh_training_run_witness :
  let run := Demo.script 3 (mkArgs false (Some 0) false) (start ∅ ["unread"] 7) in
  fst run = Ret tt /\
  fs (snd run) = {[trained_agent := Pickled Demo.fresh]} /\
  stdin (snd run) = ["unread"].
Proof.
  destruct (fresh_training_run Demo.teacher_game Demo.human_game 3
              (mkArgs false (Some 0) false) (start ∅ ["unread"] 7) 0)
    as [Hrun _].
  - reflexivity.
  - reflexivity.
  - reflexivity.
  - reflexivity.
  - simpl. lia.
  - cbv zeta. unfold Demo.script. rewrite Hrun. cbn [fst snd fs stdin].
    repeat split.
Defined.

Lemma continued_training_run_witness :
  let run := Demo.script 2 (mkArgs true (Some 2) false)
                         (start {[trained_agent := Pickled Demo.trained]} [] 0) in
  fst run = Ret tt /\
  games_played (snd run) = 2 /\
  (Agent.rewards <$> agent (snd run)) = Some [1; -1; 1; 1; 1].
Proof.
  pose proof (continued_training_run Demo.teacher_game Demo.human_game 2
                (mkArgs true (Some 2) false)
                (start {[trained_agent := Pickled Demo.trained]} [] 0) 2 Demo.trained)
    as Hrun.
  cbv zeta in *. unfold Demo.script. rewrite Hrun.
  - repeat split.
  - reflexivity.
  - reflexivity.
  - reflexivity.
  - apply lookup_singleton_eq.
  - simpl. lia.
Defined.

Lemma overwriting_training_run_witness :
  let run := Demo.script 3 (mkArgs false (Some 1) false)
                         (start {[trained_agent := Corrupt]} ["what"; "Y"; "unread"] 0) in
  fst run = Ret tt /\
  stdin (snd run) = ["unread"] /\
  (Agent.rewards <$> agent (snd run)) = Some [1].
Proof.
  pose proof (overwriting_training_run Demo.teacher_game Demo.human_game 3
                (mkArgs false (Some 1) false)
                (start {[trained_agent := Corrupt]} ["what"; "Y"; "unread"] 0)
                1 ["what"] "Y" ["unread"])
    as Hrun.
  cbv zeta in *. unfold Demo.script. rewrite Hrun.
  - repeat split.
  - reflexivity.
  - reflexivity.
  - reflexivity.
  - exists Corrupt. apply lookup_singleton_eq.
  - reflexivity.
  - repeat constructor.
  - reflexivity.
  - simpl. lia.
  - simpl. lia.
Defined.

Lemma overwrite_prompt_at_end_of_input_witness :
  fst (Demo.script 3 (mkArgs false None false)
                   (start {[trained_agent := Pickled Demo.trained]} [] 0))
  = Raise EOFError.
Proof.
  unfold Demo.script.
  rewrite (overwrite_prompt_at_end_of_input Demo.teacher_game Demo.human_game 3
             (mkArgs false None false)
             (start {[trained_agent := Pickled Demo.trained]} [] 0)).
  - reflexivity.
  - reflexivity.
  - reflexivity.
  - exists (Pickled Demo.trained). apply lookup_singleton_eq.
  - constructor.
  - simpl. lia.
Defined.

Lemma play_again_at_end_of_input_witness :
  let s := mkState 0 trained_agent (Some Demo.fresh) ∅ ["4"; "hm"] 0 [] in
  let run := while_true 3 (GameLearning.playing_round Demo.human_game 3) s in
  fst run = Raise EOFError /\ games_played (snd run) = 1.
Proof.
  intros s run. subst run.
  rewrite (play_again_at_end_of_input Demo.human_game 3 3 s Demo.fresh Demo.fresh 0 1).
  - split; reflexivity.
  - reflexivity.
  - reflexivity.
  - repeat constructor.
  - simpl. lia.
  - lia.
Defined.

Lemma saved_agent_loads_back_witness :
  let ag := Agent.record_episode_reward (Agent.record_episode_reward Demo.fresh 1) 1 in
  Demo.script 0 (mkArgs true None true)
              (start {[trained_agent := Pickled ag]} ["later"] 5) =
  (SysExit 0,
   mkState 0 trained_agent (Some ag) {[trained_agent := Pickled ag]} ["later"] 5
           [EOpen trained_agent; EPlot [1; 2]]).
Proof.
  intros ag.
  destruct (saved_agent_loads_back Demo.teacher_game Demo.human_game 2
              (mkArgs false (Some 2) false) (start ∅ [] 0)
              0 (mkArgs true None true)
              (start {[trained_agent := Pickled ag]} ["later"] 5))
    as (ag' & Hag & Hrun).
  - discriminate.
  - vm_compute. reflexivity.
  - reflexivity.
  - reflexivity.
  - reflexivity.
  - vm_compute. reflexivity.
  - vm_compute in Hag. injection Hag as <-. exact Hrun.
Defined.

Lemma script_ends_witness :
  fst (Demo.script 4 (mkArgs false None false) (start ∅ ["4"; "y"; "5"] 0)) <> OutOfFuel.
Proof.
  apply (script_ends Demo.teacher_game Demo.human_game 4 (mkArgs false None false)
           (start ∅ ["4"; "y"; "5"] 0)).
  simpl. lia.
Defined.
